(** * Evaluation of a source-separation model: tiling, scores, files

    A shallow embedding of [Evaluate.py] ([alpha_snr], [predict_track],
    [predict], [compute_mean_metrics], [draw_violin_sdr]) and of the
    dataset helpers of [Wave-U-Net/Datasets.py] ([subtract_audio],
    [get_samples_in_folder], the FMA loaders, [convert_float_to_pcm],
    [write_wav_skip_existing], [getURMPV2]), with the properties of the
    specification and further properties of the code stated over it.

    Conventions.
    - Python exceptions are values of [exn]; fallible code lives in the
      error monad [result].  The dataset helpers, which also fail in file
      access and dictionary lookup, use [dexn] and [outcome].
    - A float64 is idealised as [npfloat]: an exact real, one of the two
      infinities, or NaN.  The special-value rules of IEEE arithmetic are
      kept (x/0, inf-inf, NaN propagation); rounding, overflow and the
      sign of zero are not modelled.
    - An [ndarray] carries its shape and a row-major buffer, as numpy
      does.
    - What lies outside the repository (the file system, soundfile,
      librosa, csv, the network) is a variable of the section that uses
      it. *)

From Stdlib Require Import ZArith Reals Lra Lia.
From stdpp Require Import base list gmap strings sorting pretty.

Open Scope Z_scope.

(** ** Exceptions and the error monad *)

Inductive exn : Set :=
| AssertionError
| TypeError
| IndexError
| ValueError.

Inductive result (T : Type) : Type :=
| Ok (v : T)
| Raise (e : exn).
Arguments Ok {T} v.
Arguments Raise {T} e.

Definition bind {T U : Type} (c : result T) (k : T -> result U) : result U :=
  match c with
  | Ok v => k v
  | Raise e => Raise e
  end.

Notation "x <- c ;; k" := (bind c (fun x => k))
  (at level 100, c at next level, right associativity).

Definition py_assert (b : bool) : result unit :=
  if b then Ok tt else Raise AssertionError.

Definition is_ok {T : Type} (c : result T) : bool :=
  match c with Ok _ => true | Raise _ => false end.

(** ** Idealised float64 values *)

Module Float.

Inductive npfloat : Type :=
| Fin (r : R)
| PInf
| NInf
| NaN.

Definition isnan (x : npfloat) : bool :=
  match x with NaN => true | _ => false end.

Definition Rsign_pos (r : R) : bool := if Rlt_dec 0 r then true else false.
Definition Rsign_neg (r : R) : bool := if Rlt_dec r 0 then true else false.

Definition neg (x : npfloat) : npfloat :=
  match x with
  | Fin r => Fin (- r)
  | PInf => NInf
  | NInf => PInf
  | NaN => NaN
  end.

Definition add (x y : npfloat) : npfloat :=
  match x, y with
  | NaN, _ | _, NaN => NaN
  | Fin a, Fin b => Fin (a + b)
  | PInf, NInf | NInf, PInf => NaN
  | PInf, _ | _, PInf => PInf
  | NInf, _ | _, NInf => NInf
  end.

Definition sub (x y : npfloat) : npfloat := add x (neg y).

(** [inf_signed r] is the infinity carrying the sign of [r], NaN for 0. *)
Definition inf_signed (r : R) : npfloat :=
  if Rsign_pos r then PInf else if Rsign_neg r then NInf else NaN.

Definition mul (x y : npfloat) : npfloat :=
  match x, y with
  | NaN, _ | _, NaN => NaN
  | Fin a, Fin b => Fin (a * b)
  | Fin a, PInf | PInf, Fin a => inf_signed a
  | Fin a, NInf | NInf, Fin a => inf_signed (- a)
  | PInf, PInf | NInf, NInf => PInf
  | PInf, NInf | NInf, PInf => NInf
  end.

(** Division; a zero divisor is the positive zero (every divisor in the
    program is a sum of squares or a count). *)
Definition div (x y : npfloat) : npfloat :=
  match x, y with
  | NaN, _ | _, NaN => NaN
  | Fin a, Fin b => if Req_dec_T b 0 then inf_signed a else Fin (a / b)
  | Fin _, PInf | Fin _, NInf => Fin 0
  | PInf, Fin b => if Rsign_neg b then NInf else PInf
  | NInf, Fin b => if Rsign_neg b then PInf else NInf
  | PInf, _ | NInf, _ => NaN
  end.

Definition square (x : npfloat) : npfloat := mul x x.

Definition abs (x : npfloat) : npfloat :=
  match x with
  | Fin r => Fin (Rabs r)
  | PInf | NInf => PInf
  | NaN => NaN
  end.

Definition sqrt (x : npfloat) : npfloat :=
  match x with
  | Fin r => if Rsign_neg r then NaN else Fin (R_sqrt.sqrt r)
  | PInf => PInf
  | NInf | NaN => NaN
  end.


(** [np.sum] of a one-dimensional array. *)
Definition sum (l : list npfloat) : npfloat := foldr add (Fin 0) l.

(** [np.inner] of two one-dimensional arrays of equal length. *)
Definition inner (u v : list npfloat) : result npfloat :=
  if decide (length u = length v)
  then Ok (sum (zip_with mul u v))
  else Raise ValueError.


End Float.
Export Float.

(** ** [alpha_snr] (Evaluate.py, lines 35-44) *)


(** The specification's formula over exact reals. *)
Module SnrSpec.

Definition Rsum (l : list R) : R := foldr Rplus 0%R l.



Definition inner (target estimate : list R) : R :=
  Rsum (zip_with Rmult target estimate).



End SnrSpec.

(** ** Arrays *)

Module Np.

Record ndarray (A : Type) : Type := NdArray { shape : list nat; data : list A }.
Arguments NdArray {A} shape data.
Arguments shape {A} _.
Arguments data {A} _.

(** What the numeric code needs of a sample type: the fill value of
    [np.zeros] and [np.pad], and the average [np.mean] takes of a row. *)
Class Sample (A : Type) : Type := { zero : A; mean : list A -> A }.

Section Arrays.
Context {A : Type} `{Sample A}.

Definition ndim (a : ndarray A) : nat := length (shape a).

(** [a.shape[k]] where the axis exists. *)
Definition dim (a : ndarray A) (k : nat) : nat := nth k (shape a) 0%nat.

(** The rows of a two-dimensional array, cut out of its row-major buffer. *)
Definition rows2 (a : ndarray A) : list (list A) :=
  map (fun i => take (dim a 1) (drop (i * dim a 1) (data a))) (seq 0 (dim a 0)).

(** The two-dimensional array of [c] columns with the given rows. *)
Definition of_rows (c : nat) (rs : list (list A)) : ndarray A :=
  NdArray [length rs; c] (concat rs).

(** [a.T].  Every array transposed by the program has two axes
    ([librosa.resample] keeps the number of axes); for another rank only
    the shape is reversed here. *)
Definition transpose (a : ndarray A) : ndarray A :=
  if decide (ndim a = 2%nat)
  then of_rows (dim a 0)
         (map (fun j => map (fun r => nth j r zero) (rows2 a)) (seq 0 (dim a 1)))
  else NdArray (reverse (shape a)) (data a).

(** [np.mean(a, axis=1, keepdims=True)] *)
Definition np_mean_axis1 (a : ndarray A) : ndarray A :=
  of_rows 1 (map (fun r => [mean r]) (rows2 a)).

(** [np.tile(a, [1, k])] *)
Definition np_tile_cols (a : ndarray A) (k : nat) : ndarray A :=
  of_rows (k * dim a 1) (map (fun r => concat (replicate k r)) (rows2 a)).

(** [np.zeros(shape)] *)
Definition np_zeros (shp : list nat) : ndarray A :=
  NdArray shp (replicate (foldr Nat.mul 1%nat shp) zero).

(** [np.pad(a, [(p, p), (0, 0)], mode="constant", constant_values=0.0)];
    numpy refuses a negative pad width. *)
Definition np_pad_rows (a : ndarray A) (p : Z) : result (ndarray A) :=
  if decide (p < 0) then Raise ValueError
  else
    let zrows := replicate (Z.to_nat p) (replicate (dim a 1) zero) in
    Ok (of_rows (dim a 1) (zrows ++ rows2 a ++ zrows)).

(** [np.expand_dims(a, axis=0)] *)
Definition np_expand_dims0 (a : ndarray A) : ndarray A :=
  NdArray (1%nat :: shape a) (data a).

(** A bound of a Python slice over [n] items: a negative bound counts
    from the end, and every bound is clipped to [0, n]. *)
Definition slice_bound (n : nat) (i : Z) : nat :=
  Z.to_nat (if decide (i < 0) then Z.max 0 (i + Z.of_nat n) else Z.min i (Z.of_nat n)).

(** [a[start:stop, :]] *)
Definition slice_rows (a : ndarray A) (start stop : Z) : ndarray A :=
  let s := slice_bound (dim a 0) start in
  let e := slice_bound (dim a 0) stop in
  of_rows (dim a 1) (take (e - s) (drop s (rows2 a))).

(** [a[0, :, :]] of a three-dimensional array. *)
Definition index0 (a : ndarray A) : result (ndarray A) :=
  match shape a with
  | [b; r; c] =>
      if decide (b = 0%nat) then Raise IndexError
      else Ok (NdArray [r; c] (take (r * c) (data a)))
  | _ => Raise IndexError
  end.

(** The rows of [v] broadcast to [k] rows of [c] columns, when numpy
    allows it: an axis of [v] has the wanted length or length one. *)
Definition broadcast_rows (v : ndarray A) (k c : nat) : result (list (list A)) :=
  let widen (r : list A) :=
    if decide (dim v 1 = c) then r else replicate c (nth 0 r zero) in
  if decide (ndim v = 2%nat /\ (dim v 1 = c \/ dim v 1 = 1%nat)) then
    if decide (dim v 0 = k) then Ok (map widen (rows2 v))
    else if decide (dim v 0 = 1%nat)
         then Ok (replicate k (widen (nth 0 (rows2 v) [])))
         else Raise ValueError
  else Raise ValueError.

(** [a[start:stop] = v] for two-dimensional [a] and [v]. *)
Definition assign_rows (a : ndarray A) (start stop : Z) (v : ndarray A)
  : result (ndarray A) :=
  let s := slice_bound (dim a 0) start in
  let e := slice_bound (dim a 0) stop in
  new <- broadcast_rows v (e - s) (dim a 1) ;;
  Ok (NdArray (shape a)
        (concat (take s (rows2 a) ++ new ++ drop (s + (e - s)) (rows2 a)))).

(** An array is well formed when its buffer has as many items as its
    shape says; every numpy array is. *)
Definition well_formed (a : ndarray A) : Prop :=
  length (data a) = foldr Nat.mul 1%nat (shape a).

(** What [a[s:s + k] = v] does to the rows of [a], for [k] new rows. *)
Definition write_rows (s k : nat) (rows new : list (list A)) : list (list A) :=
  take s rows ++ new ++ drop (s + k) rows.

(** The rows of a buffer after the slice assignments
    [a[s:s + k] = out s], one for each start [s] in order. *)
Definition paste_rows (out : Z -> list (list A)) (k : Z)
    (rows : list (list A)) (starts : list Z) : list (list A) :=
  foldl (fun rows s => write_rows (Z.to_nat s) (Z.to_nat k) rows (out s)) rows starts.

End Arrays.
End Np.
Export Np.

(** ** Python built-ins *)

(** [l[i]] for a non-negative index. *)
Definition py_index {T : Type} (l : list T) (i : nat) : result T :=
  match l !! i with
  | Some x => Ok x
  | None => Raise IndexError
  end.

(** [range(start, stop, step)] *)
Definition py_range (start stop step : Z) : result (list Z) :=
  if decide (step = 0) then Raise ValueError
  else if decide (0 < step)
       then Ok (map (fun k => start + k * step) (seqZ 0 ((stop - start + step - 1) / step)))
       else Ok (map (fun k => start + k * step) (seqZ 0 ((start - stop - step - 1) / (- step)))).

(** A [for] loop whose body may raise. *)
Definition for_each {S X : Type} (xs : list X) (body : S -> X -> result S) (s : S)
  : result S :=
  foldl (fun acc x => s' <- acc ;; body s' x) (Ok s) xs.

(** ** [predict_track] and [predict] (Evaluate.py, lines 46-188) *)

(** The entries of the model configuration dictionary the code reads. *)
Record model_config : Type := ModelConfig {
  mono_downmix : bool;
  expected_sr : Z;
  num_sources : nat;
  task : string
}.

(** [librosa.resample(y, orig_sr, target_sr, res_type)], which resamples
    along the last axis; the resampler itself is outside the repository.
    [predict_track] asks for "kaiser_fast", [predict] for the default,
    "kaiser_best". *)
Class Librosa (A : Type) : Type :=
  { resample : ndarray A -> Z -> Z -> string -> ndarray A }.

Section Predict.
Context {A : Type} `{Sample A} `{Librosa A}.

(** [sess.run(separator_sources, feed_dict={mix_context: mix_part})]: one
    array of shape (1, frames, channels) per source, or an exception. *)
Definition inference : Type := ndarray A -> result (list (ndarray A)).

(** Lines 153-157: convert to mono, or duplicate a mono input. *)
Definition adapt_channels (cfg : model_config) (mix_audio : ndarray A) : ndarray A :=
  if mono_downmix cfg then np_mean_axis1 mix_audio
  else if decide (dim mix_audio 1 = 1%nat) then np_tile_cols mix_audio 2
       else mix_audio.

(** Lines 174-175: a patch that would reach over the end is moved so that
    it ends at the end. *)
Definition clamp_pos (source_pos source_time_frames output_time_frames : Z) : Z :=
  if decide (source_pos + output_time_frames > source_time_frames)
  then source_time_frames - output_time_frames
  else source_pos.

(** Lines 185-186: [source_preds[i][pos:pos + O] = source_parts[i][0, :, :]]
    for every source. *)
Definition save_prediction (source_parts : list (ndarray A))
    (source_pos output_time_frames : Z) (source_preds : list (ndarray A)) (i : nat)
  : result (list (ndarray A)) :=
  part <- py_index source_parts i ;;
  part0 <- index0 part ;;
  buf <- py_index source_preds i ;;
  buf' <- assign_rows buf source_pos (source_pos + output_time_frames) part0 ;;
  Ok (<[i := buf']> source_preds).

Definition save_predictions (n : nat) (source_parts : list (ndarray A))
    (source_pos output_time_frames : Z) (source_preds : list (ndarray A))
  : result (list (ndarray A)) :=
  for_each (seq 0 n) (save_prediction source_parts source_pos output_time_frames)
    source_preds.

(** Lines 178-179: the excerpt of the padded mixture fed to the network
    for the window whose output starts at [source_pos]. *)
Definition mix_part_at (mix_audio_padded : ndarray A) (source_pos input_time_frames : Z)
  : ndarray A :=
  np_expand_dims0
    (slice_rows mix_audio_padded source_pos (source_pos + input_time_frames)).

(** Lines 173-186: the body of the loop over [source_pos]. *)
Definition predict_window (cfg : model_config) (sess : inference)
    (mix_audio_padded : ndarray A)
    (source_time_frames input_time_frames output_time_frames : Z)
    (source_preds : list (ndarray A)) (source_pos : Z)
  : result (list (ndarray A)) :=
  let source_pos := clamp_pos source_pos source_time_frames output_time_frames in
  let mix_part := mix_part_at mix_audio_padded source_pos input_time_frames in
  source_parts <- sess mix_part ;;
  save_predictions (num_sources cfg) source_parts source_pos output_time_frames
    source_preds.

(** The mixture as the loop sees it: channel-adapted, then resampled. *)
Definition prepare_mixture (cfg : model_config) (mix_audio : ndarray A) (mix_sr : Z)
  : ndarray A :=
  transpose (resample (transpose (adapt_channels cfg mix_audio)) mix_sr (expected_sr cfg)
               "kaiser_fast").

Definition predict_track (cfg : model_config) (sess : inference)
    (mix_audio : ndarray A) (mix_sr : Z)
    (sep_input_shape sep_output_shape : Z * Z * Z)
  : result (list (ndarray A)) :=
  _ <- py_assert (bool_decide (ndim mix_audio = 2%nat)) ;;
  let mix_audio := prepare_mixture cfg mix_audio mix_sr in
  let source_time_frames := Z.of_nat (dim mix_audio 0) in
  let source_preds := replicate (num_sources cfg) (np_zeros (shape mix_audio)) in
  let input_time_frames := sep_input_shape.1.2 in
  let output_time_frames := sep_output_shape.1.2 in
  let pad_time_frames := (input_time_frames - output_time_frames) / 2 in
  mix_audio_padded <- np_pad_rows mix_audio pad_time_frames ;;
  positions <- py_range 0 source_time_frames output_time_frames ;;
  for_each positions
    (predict_window cfg sess mix_audio_padded
       source_time_frames input_time_frames output_time_frames)
    source_preds.

(** The start of the output segment of every window of the loop, in
    order: the values [source_pos] takes after line 175. *)
Definition window_starts (source_time_frames output_time_frames : Z) : result (list Z) :=
  positions <- py_range 0 source_time_frames output_time_frames ;;
  Ok (map (fun p => clamp_pos p source_time_frames output_time_frames) positions).

(** The mixture after padding (line 169), for a pad width that is not
    negative. *)
Definition padded_mixture (cfg : model_config) (mix_audio : ndarray A) (mix_sr : Z)
    (input_time_frames output_time_frames : Z) : ndarray A :=
  let mix := prepare_mixture cfg mix_audio mix_sr in
  let zrows :=
    replicate (Z.to_nat ((input_time_frames - output_time_frames) / 2))
      (replicate (dim mix 1) zero) in
  of_rows (dim mix 1) (zrows ++ rows2 mix ++ zrows).

(** The rows of [part[0, :, :]] (none where the indexing fails). *)
Definition output_rows (part : ndarray A) : list (list A) :=
  match index0 part with
  | Ok v => rows2 v
  | Raise _ => []
  end.

(** The frames the network returns for source [i] on the window whose
    output starts at [source_pos]: the rows of [source_parts[i][0, :, :]]
    (no frame if the session fails there). *)
Definition window_output (sess : inference) (mix_audio_padded : ndarray A)
    (input_time_frames : Z) (i : nat) (source_pos : Z) : list (list A) :=
  match sess (mix_part_at mix_audio_padded source_pos input_time_frames) with
  | Ok source_parts =>
      match source_parts !! i with
      | Some part => output_rows part
      | None => []
      end
  | Raise _ => []
  end.

(** A network output for one source: a batch of one window of [o]
    frames and [c] channels. *)
Definition window_shaped (o c : nat) (part : ndarray A) : Prop :=
  shape part = [1%nat; o; c] /\ well_formed part.

(** The session answers every input window of [i] frames and [c]
    channels with one output window per source. *)
Definition session_ok (sess : inference) (n i o c : nat) : Prop :=
  forall w : ndarray A,
    shape w = [1%nat; i; c] ->
    exists source_parts : list (ndarray A),
      sess w = Ok source_parts
      /\ length source_parts = n
      /\ Forall (window_shaped o c) source_parts.

(** The rows of the buffer of source [i] after the windows that start
    at [starts] have been saved into [rows]. *)
Definition tiled_rows (sess : inference) (mix_audio_padded : ndarray A)
    (input_time_frames output_time_frames : Z) (i : nat)
    (rows : list (list A)) (starts : list Z) : list (list A) :=
  paste_rows (window_output sess mix_audio_padded input_time_frames i)
    output_time_frames rows starts.

(** What the code relies on from the resampler: a two-dimensional
    (channels, frames) array stays two-dimensional and keeps its
    channels. *)
Definition resampler_ok : Prop :=
  forall (y : ndarray A) (orig_sr target_sr : Z) (res_type : string),
    ndim y = 2%nat ->
    ndim (resample y orig_sr target_sr res_type) = 2%nat
    /\ dim (resample y orig_sr target_sr res_type) 0 = dim y 0.

(** The start of the window whose output the finished buffer holds at
    frame [p]: the last window if it reaches [p], else the window of the
    regular grid. *)
Definition owner (source_time_frames output_time_frames p : Z) : Z :=
  if decide (source_time_frames - output_time_frames <= p)
  then source_time_frames - output_time_frames
  else output_time_frames * (p / output_time_frames).

(** What the finished buffers hold: one buffer per source, of the shape
    of the prepared mixture, whose every frame [p] is the frame
    [p - owner p] of the network's output for the window that starts at
    [owner p]. *)
Definition tiled_result (cfg : model_config) (sess : inference)
    (mix_audio : ndarray A) (mix_sr : Z) (input_time_frames output_time_frames : Z)
    (source_preds : list (ndarray A)) : Prop :=
  let mix := prepare_mixture cfg mix_audio mix_sr in
  let L := Z.of_nat (dim mix 0) in
  let padded := padded_mixture cfg mix_audio mix_sr input_time_frames output_time_frames in
  length source_preds = num_sources cfg
  /\ forall (i : nat) (pred : ndarray A),
       source_preds !! i = Some pred ->
       shape pred = [dim mix 0; dim mix 1]
       /\ forall p : Z,
            0 <= p < L ->
            exists row : list A,
              rows2 pred !! Z.to_nat p = Some row
              /\ window_output sess padded input_time_frames i
                   (owner L output_time_frames p)
                 !! Z.to_nat (p - owner L output_time_frames p) = Some row.


(** Lines 100-121 of [predict]: the estimates handed to the scoring
    library.  Loading the model and the call of [museval] are outside the
    repository; the session and the separator's shapes are parameters. *)
Definition predict (cfg : model_config) (sess : inference)
    (track_audio : ndarray A) (track_rate : Z)
    (sep_input_shape sep_output_shape : Z * Z * Z)
  : result (gmap string (ndarray A)) :=
  let mix_audio := track_audio in
  let orig_sr := track_rate in
  mix_channels <- py_index (shape track_audio) 1 ;;
  separator_preds <-
    predict_track cfg sess mix_audio orig_sr sep_input_shape sep_output_shape ;;
  let pred_audio :=
    map (fun pred =>
           transpose (resample (transpose pred) (expected_sr cfg) orig_sr "kaiser_best"))
      separator_preds in
  let pred_audio :=
    if mono_downmix cfg && bool_decide (1 < mix_channels)%nat
    then map (fun pred => np_tile_cols pred mix_channels) pred_audio
    else pred_audio in
  if decide (task cfg = "voice"%string) then
    vocals <- py_index pred_audio 1 ;;
    accompaniment <- py_index pred_audio 0 ;;
    Ok (<["vocals"%string := vocals]> (<["accompaniment"%string := accompaniment]> ∅))
  else
    bass <- py_index pred_audio 0 ;;
    drums <- py_index pred_audio 1 ;;
    other <- py_index pred_audio 2 ;;
    vocals <- py_index pred_audio 3 ;;
    Ok (<["bass"%string := bass]> (<["drums"%string := drums]>
         (<["other"%string := other]> (<["vocals"%string := vocals]> ∅)))).

End Predict.

(** ** A concrete instance: integer samples and an identity resampler *)

Module IntAudio.

#[export] Instance sample_Z : Sample Z :=
  {| zero := 0; mean := fun l => foldr Z.add 0 l / Z.of_nat (length l) |}.

#[export] Instance librosa_id : Librosa Z :=
  {| resample := fun y _ _ _ => y |}.

(** A session for [n] sources whose outputs have [o] frames of [c]
    channels: frame [j] of source [i] holds [1000 * i + j + 1], whatever
    the input. *)
Definition ramp_session (n o c : nat) : inference (A := Z) := fun _ =>
  Ok (map (fun i =>
             NdArray [1%nat; o; c]
               (flat_map (fun j => replicate c (1000 * Z.of_nat i + Z.of_nat j + 1))
                  (seq 0 o)))
        (seq 0 n)).

(** A session that always fails. *)
Definition failing_session : inference (A := Z) := fun _ => Raise ValueError.

(** A mixture of [l] frames and [c] channels whose frame [i] holds [i]. *)
Definition ramp_mixture (l c : nat) : ndarray Z :=
  NdArray [l; c] (flat_map (fun i => replicate c (Z.of_nat i)) (seq 0 l)).

End IntAudio.

(** ** [compute_mean_metrics] (Evaluate.py, lines 191-211) *)

Module Metrics.

(** A score file as [json.load] returns it: [js["targets"][i]["frames"]]
    is a list of frames, each with [f["metrics"]["SDR"]]. *)
Record frame : Type := Frame { SDR : npfloat }.
Record target : Type := Target { frames : list frame }.
Record score_file : Type := ScoreFile { targets : list target }.

(** The order of [np.sort]: the usual order, NaN after everything. *)
Definition np_leb (x y : npfloat) : bool :=
  match x, y with
  | _, NaN => true
  | NaN, _ => false
  | NInf, _ => true
  | _, NInf => false
  | _, PInf => true
  | PInf, _ => false
  | Fin a, Fin b => if Rle_dec a b then true else false
  end.

Definition np_le (x y : npfloat) : Prop := np_leb x y = true.

#[export] Instance np_le_dec (x y : npfloat) : Decision (np_le x y) :=
  decide (np_leb x y = true).

Definition np_sort (l : list npfloat) : list npfloat := merge_sort np_le l.

Definition notnan (x : npfloat) : bool := negb (isnan x).

(** [np.mean] of a one-dimensional array; the empty mean is 0/0. *)
Definition np_mean (l : list npfloat) : npfloat :=
  div (Float.sum l) (Fin (INR (length l))).

(** [np.median]: NaN if any entry is NaN, else the middle of the sorted
    array, the mean of the two middle entries for an even length. *)
Definition np_median (l : list npfloat) : npfloat :=
  if existsb isnan l then NaN
  else
    let s := np_sort l in
    let n := length l in
    if decide (n = 0%nat) then NaN
    else if Nat.even n
         then np_mean [nth (n / 2 - 1) s NaN; nth (n / 2) s NaN]
         else nth (n / 2) s NaN.

(** [np.std], with the default [ddof=0]. *)
Definition np_std (l : list npfloat) : npfloat :=
  let m := np_mean l in
  Float.sqrt (np_mean (map (fun x => square (Float.abs (sub x m))) l)).

(** The NaN-ignoring variants drop the NaN entries first. *)
Definition nan_filter (l : list npfloat) : list npfloat := List.filter notnan l.
Definition np_nanmedian (l : list npfloat) : npfloat := np_median (nan_filter l).
Definition np_nanmean (l : list npfloat) : npfloat := np_mean (nan_filter l).
Definition np_nanstd (l : list npfloat) : npfloat := np_std (nan_filter l).

(** [sdr_inst_list[i].extend(vals)] *)
Definition extend_at (lists : list (list npfloat)) (i : nat) (vals : list npfloat)
  : result (list (list npfloat)) :=
  l <- py_index lists i ;;
  Ok (<[i := l ++ vals]> lists).

(** Lines 199-203: the body of the loop over the files. *)
Definition accumulate (sdr_inst_list : option (list (list npfloat))) (js : score_file)
  : result (option (list (list npfloat))) :=
  let lists :=
    match sdr_inst_list with
    | None => replicate (length (targets js)) []
    | Some lists => lists
    end in
  lists' <- for_each (seq 0 (length (targets js))) (fun lists i =>
              t <- py_index (targets js) i ;;
              extend_at lists i (map SDR (frames t))) lists ;;
  Ok (Some lists').

(** The scores one file contributes, per target. *)
Definition column (js : score_file) : list (list npfloat) :=
  map (fun t => map SDR (frames t)) (targets js).

(** Line 209: the summary of one source. *)
Definition summary (sdr : list npfloat) : npfloat * npfloat * npfloat * npfloat :=
  (np_nanmedian sdr,
   np_nanmedian (map Float.abs (map (fun x => sub x (np_nanmedian sdr)) sdr)),
   np_nanmean sdr,
   np_nanstd sdr).

Inductive metrics : Type :=
| Averages (stats : list (npfloat * npfloat * npfloat * npfloat))
| Distributions (sdr_inst_list : list (list npfloat)).

(** [files] are the score files of the folder, in the order of [glob]. *)
Definition compute_mean_metrics (files : list score_file) (compute_averages : bool)
  : result metrics :=
  sdr_inst_list <- for_each files accumulate None ;;
  match sdr_inst_list with
  | None => Raise TypeError
  | Some sdr_inst_list =>
      if compute_averages then Ok (Averages (map summary sdr_inst_list))
      else Ok (Distributions sdr_inst_list)
  end.

(** Example score files: one target with one score; two targets; and two
    files with one target each. *)
Definition one_target_file : score_file := ScoreFile [Target [Frame (Fin 1)]].

Definition two_target_file : score_file :=
  ScoreFile [Target [Frame (Fin 2)]; Target [Frame (Fin 3)]].




End Metrics.

(** ** [write_wav_skip_existing] (Wave-U-Net/Datasets.py, lines 113-117) *)

Module Files.

(** What [soundfile.write(path, y, sr, subtype)] leaves at [path]. *)
Record wav_file (A : Type) : Type := WavFile {
  wav_audio : ndarray A;
  wav_rate : Z;
  wav_subtype : string
}.
Arguments WavFile {A} wav_audio wav_rate wav_subtype.

(** The file system and the standard output. *)
Record world (A : Type) : Type := World {
  fs : gmap string (wav_file A);
  stdout : list string
}.
Arguments World {A} fs stdout.
Arguments fs {A} _.
Arguments stdout {A} _.

Definition path_exists {A : Type} (w : world A) (path : string) : bool :=
  bool_decide (is_Some (fs w !! path)).

Definition soundfile_write {A : Type} (path : string) (y : ndarray A) (sr : Z)
    (subtype : string) (w : world A) : world A :=
  World (<[path := WavFile y sr subtype]> (fs w)) (stdout w).

Definition print {A : Type} (line : string) (w : world A) : world A :=
  World (fs w) (stdout w ++ [line]).

Definition write_wav_skip_existing {A : Type} (path : string) (y : ndarray A)
    (sr : Z) (norm : bool) (w : world A) : world A :=
  if negb (path_exists w path)
  then soundfile_write path y sr "PCM_16" w
  else print ("WARNING: Tried writing audio to " +:+ path +:+
              ", but audio file exists already. Skipping file!") w.

(** An example: a world whose only file is [a.wav]. *)
Definition old_wav : wav_file Z := WavFile (NdArray [1%nat; 1%nat] [7]) 44100 "PCM_16".

Definition one_file_world : world Z := World (<["a.wav"%string := old_wav]> ∅) [].

End Files.

(** ** [draw_violin_sdr] (Evaluate.py, lines 213-217) and the raw
    distributions *)

Module Violin.
Import Metrics.

(** The scores of target [i] in one file; none if the file has no such
    target. *)
Definition scores_of (js : score_file) (i : nat) : list npfloat :=
  match targets js !! i with
  | Some t => map SDR (frames t)
  | None => []
  end.

(** The accumulated lists after one more file with at most as many
    targets as there are lists. *)
Definition merge_scores (lists : list (list npfloat)) (js : score_file)
  : list (list npfloat) :=
  zip_with app (take (length (targets js)) lists) (column js)
  ++ drop (length (targets js)) lists.

(** Lines 214-217: the two distributions handed to the plot.  The tuple
    assignment [acc, voc = ...] needs exactly two arrays, and the boolean
    masks drop the NaN entries.  The plotting calls that follow are
    outside the repository. *)
Definition violin_data (files : list score_file) : result (list (list npfloat)) :=
  dists <- compute_mean_metrics files false ;;
  match dists with
  | Distributions [acc; voc] =>
      let acc := List.filter (fun x => negb (isnan x)) acc in
      let voc := List.filter (fun x => negb (isnan x)) voc in
      Ok [acc; voc]
  | Distributions _ => Raise ValueError
  | Averages _ => Raise ValueError
  end.

End Violin.

(** ** The dataset helpers of Wave-U-Net/Datasets.py *)

Module Datasets.

(** The exceptions of the dataset code: the built-in ones of [exn], and
    those of file access, dictionary lookup and integer division. *)
Inductive dexn : Type :=
| Builtin (e : exn)
| IOError
| KeyError
| ZeroDivisionError
| LibraryError.

Inductive outcome (T : Type) : Type :=
| Done (v : T)
| Failed (e : dexn).
Arguments Done {T} v.
Arguments Failed {T} e.

Definition obind {T U : Type} (c : outcome T) (k : T -> outcome U) : outcome U :=
  match c with
  | Done v => k v
  | Failed e => Failed e
  end.

Notation "x <~ c ;; k" := (obind c (fun x => k))
  (at level 100, c at next level, right associativity).

(** Python string methods and [os.path] on POSIX *)

Definition py_startswith (s prefix : string) : bool := String.prefix prefix s.

Definition py_endswith (s suffix : string) : bool :=
  (String.length suffix <=? String.length s)%nat
  && String.eqb
       (String.substring (String.length s - String.length suffix)
          (String.length suffix) s)
       suffix.

(** [s.split(sep)] for a separator of one character. *)
Fixpoint py_split (sep : Ascii.ascii) (s : string) : list string :=
  match s with
  | EmptyString => [EmptyString]
  | String c s' =>
      if Ascii.eqb c sep then EmptyString :: py_split sep s'
      else match py_split sep s' with
           | [] => [String c EmptyString]
           | piece :: pieces => String c piece :: pieces
           end
  end.

(** The character [_]. *)
Definition underscore : Ascii.ascii := Ascii.ascii_of_nat 95.

(** [posixpath.join(a, b)] *)
Definition path_join (a b : string) : string :=
  if py_startswith b "/" then b
  else if String.eqb a EmptyString || py_endswith a "/" then a +:+ b
       else a +:+ "/" +:+ b.

(** [l.insert(i, x)] for an index that is not negative. *)
Definition py_insert {T : Type} (i : nat) (x : T) (l : list T) : list T :=
  take i l ++ x :: drop i l.

(** Modelled from the spec: the class [Sample] is imported from a module
    that is not among the sources; the code builds it from a path, a
    sample rate, a channel count and a duration and reads these back as
    attributes. *)
Record Sample : Type := MkSample {
  path : string;
  sample_rate : Z;
  channels : nat;
  duration : Z
}.

End Datasets.

(** ** [getURMPV2] (Wave-U-Net/Datasets.py, lines 176-241) *)

Module Urmp.
Import Datasets.

Definition silence_path : string := "/mnt/disks/datasets/silence.wav".

Definition source_map : gmap string nat :=
  list_to_map
    [("mix"%string, 0%nat); ("bn"%string, 1%nat); ("cl"%string, 2%nat);
     ("db"%string, 3%nat); ("fl"%string, 4%nat); ("hn"%string, 5%nat);
     ("ob"%string, 6%nat); ("sax"%string, 7%nat); ("tba"%string, 8%nat);
     ("tbn"%string, 9%nat); ("tpt"%string, 10%nat); ("va"%string, 11%nat);
     ("vc"%string, 12%nat); ("vn"%string, 13%nat)].

(** An entry of [track_sources]: the placeholder [0] or a sample.  (A
    [Sample] is taken never to compare equal to [0].) *)
Inductive slot : Type :=
| Placeholder
| Loaded (s : Sample).

Section UrmpCode.

(** [os.listdir] and [soundfile.read(path, always_2d=True)], the latter
    reduced to what the code uses of its result: the numbers of frames
    and channels and the sample rate. *)
Variable listdir : string -> outcome (list string).
Variable sf_read : string -> outcome (nat * nat * Z).

(** The four lines that read a file and build its [Sample]; the duration
    is the integer quotient [frames / rate] of Python 2. *)
Definition read_sample (p : string) : outcome Sample :=
  r <~ sf_read p ;;
  let '(frames, chans, rate) := r in
  if decide (rate = 0) then Failed ZeroDivisionError
  else Done (MkSample p rate chans (Z.of_nat frames / rate)).

(** Lines 210-226: the body of the loop over the files of a folder. *)
Definition place_file (dir : string) (track_sources : list slot) (filename : string)
  : outcome (list slot) :=
  if py_endswith filename ".wav" then
    if py_startswith filename "AuMix" then
      mix <~ read_sample (path_join dir filename) ;;
      Done (py_insert 0 (Loaded mix) track_sources)
    else
      source_name <~ match py_split underscore filename !! 2%nat with
                     | Some name => Done name
                     | None => Failed (Builtin IndexError)
                     end ;;
      source_idx <~ match source_map !! source_name with
                    | Some idx => Done idx
                    | None => Failed KeyError
                    end ;;
      source <~ read_sample (path_join dir filename) ;;
      Done (py_insert source_idx (Loaded source) track_sources)
  else Done track_sources.

Fixpoint place_files (dir : string) (track_sources : list slot) (filenames : list string)
  : outcome (list slot) :=
  match filenames with
  | [] => Done track_sources
  | filename :: rest =>
      track_sources' <~ place_file dir track_sources filename ;;
      place_files dir track_sources' rest
  end.

(** Lines 206-238: the tuple of one track folder. *)
Definition urmp_track (subset_dir folder : string) : outcome (list Sample) :=
  filenames <~ listdir (path_join subset_dir folder) ;;
  track_sources <~ place_files (path_join subset_dir folder)
                     (replicate 14 Placeholder) filenames ;;
  silence <~ read_sample silence_path ;;
  Done (map (fun track => match track with
                          | Placeholder => silence
                          | Loaded s => s
                          end) track_sources).

Fixpoint urmp_tracks (subset_dir : string) (folders : list string)
  : outcome (list (list Sample)) :=
  match folders with
  | [] => Done []
  | folder :: rest =>
      track <~ urmp_track subset_dir folder ;;
      tracks <~ urmp_tracks subset_dir rest ;;
      Done (track :: tracks)
  end.

Definition urmp_subset (database_path subset : string) : outcome (list (list Sample)) :=
  let subset_dir := path_join database_path subset in
  folders <~ listdir subset_dir ;;
  urmp_tracks subset_dir folders.

Definition getURMPV2 (database_path : string) : outcome (list (list (list Sample))) :=
  train <~ urmp_subset database_path "train" ;;
  test <~ urmp_subset database_path "test" ;;
  Done [train; test].

End UrmpCode.

(** Whether the loop looks at a file at all. *)
Definition is_wav (filename : string) : bool := py_endswith filename ".wav".

(** The index at which a .wav file is inserted: 0 for the mix. *)
Definition insert_index (filename : string) : option nat :=
  if py_startswith filename "AuMix" then Some 0%nat
  else match py_split underscore filename !! 2%nat with
       | Some name => source_map !! name
       | None => None
       end.

(** The insertion indices of the .wav files of a listing, in its order. *)
Definition wav_indexes (filenames : list string) : list nat :=
  omap insert_index (List.filter is_wav filenames).

End Urmp.

(** ** [subtract_audio] (Wave-U-Net/Datasets.py, lines 17-43) *)

Module Subtract.
Import Datasets.

(** The audio arrays and what numpy and [os.path] do with them and with
    paths, all outside the repository: [os.path.dirname], the extension
    [os.path.splitext(p)[1]], the difference [mix_audio - inst_audio]
    (numpy refuses shapes it cannot broadcast) and the test
    [np.min(a) >= -1.0 and np.max(a) <= 1.0] (numpy refuses an empty
    array). *)
Class AudioFiles (Au : Type) : Type := {
  dirname : string -> string;
  extension : string -> string;
  audio_sub : Au -> Au -> outcome Au;
  in_range : Au -> outcome bool
}.

(** The audio files on disk, each with its sample rate, and the standard
    output. *)
Record disk (Au : Type) : Type := Disk {
  files : gmap string (Au * Z);
  stdout : list string
}.
Arguments Disk {Au} files stdout.
Arguments files {Au} _.
Arguments stdout {Au} _.

Section SubtractCode.
Context {Au : Type} `{AudioFiles Au}.

Definition path_exists (d : disk Au) (p : string) : bool :=
  bool_decide (is_Some (files d !! p)).

(** [librosa.load(p, mono=False, sr=None)] *)
Definition librosa_load (d : disk Au) (p : string) : outcome (Au * Z) :=
  match files d !! p with
  | Some f => Done f
  | None => Failed IOError
  end.

(** [librosa.output.write_wav(p, y, sr)] *)
Definition write_wav (p : string) (y : Au) (sr : Z) (d : disk Au) : disk Au :=
  Disk (<[p := (y, sr)]> (files d)) (stdout d).

Definition print (line : string) (d : disk Au) : disk Au :=
  Disk (files d) (stdout d ++ [line]).

(** Line 29 *)
Definition new_audio_path (mix : string) : string :=
  dirname mix +:+ "/" +:+ "remainingmix" +:+ extension mix.

(** Lines 32-42: the body of the loop once the new path is appended. *)
Definition subtract_one (mix inst : string) (d : disk Au) : outcome unit * disk Au :=
  let p := new_audio_path mix in
  if path_exists d p then (Done tt, d)
  else
    match librosa_load d mix with
    | Failed e => (Failed e, d)
    | Done (mix_audio, mix_sr) =>
        match librosa_load d inst with
        | Failed e => (Failed e, d)
        | Done (inst_audio, inst_sr) =>
            if negb (mix_sr =? inst_sr) then (Failed (Builtin AssertionError), d)
            else
              match audio_sub mix_audio inst_audio with
              | Failed e => (Failed e, d)
              | Done new_audio =>
                  match in_range new_audio with
                  | Failed e => (Failed e, d)
                  | Done ok =>
                      let d1 :=
                        if ok then d
                        else print ("Warning: Audio for mix " +:+ p +:+
                                    " exceeds [-1,1] float range!") d in
                      let d2 := write_wav p new_audio mix_sr d1 in
                      (Done tt, print ("Wrote accompaniment for song " +:+ mix) d2)
                  end
              end
        end
    end.

(** Lines 28-42: the loop, over the pairs [(mix_list[i], instrument_list[i])]. *)
Fixpoint subtract_loop (pairs : list (string * string)) (new_audio_list : list string)
    (d : disk Au) : outcome (list string) * disk Au :=
  match pairs with
  | [] => (Done new_audio_list, d)
  | (mix, inst) :: rest =>
      let new_audio_list := new_audio_list ++ [new_audio_path mix] in
      match subtract_one mix inst d with
      | (Done _, d') => subtract_loop rest new_audio_list d'
      | (Failed e, d') => (Failed e, d')
      end
  end.

Definition subtract_audio (mix_list instrument_list : list string) (d : disk Au)
  : outcome (list string) * disk Au :=
  if negb (length mix_list =? length instrument_list)%nat
  then (Failed (Builtin AssertionError), d)
  else subtract_loop (zip mix_list instrument_list) [] d.

End SubtractCode.

End Subtract.

(** ** [getAllFilesOfType] and [get_samples_in_folder]
    (Wave-U-Net/Datasets.py, lines 52-77) *)

Module Folder.
Import Datasets.

Section FolderCode.

(** [os.walk] as the list of the triples it yields, [fnmatch.filter],
    and [Sample.from_path], which belongs to the missing module of
    [Sample]. *)
Variable walk : string -> list (string * list string * list string).
Variable fnmatch_filter : list string -> string -> list string.
Variable from_path : string -> outcome Sample.

Definition getAllFilesOfType (root_path extension : string) : list string :=
  foldl (fun matches '(root, dirnames, filenames) =>
           foldl (fun matches filename => matches ++ [path_join root filename])
             matches (fnmatch_filter filenames ("*." +:+ extension)))
    [] (walk root_path).

(** Lines 62-69: the loop, with the lines printed so far. *)
Fixpoint read_samples (audio_path : string) (audio_file_list : list string)
    (sample_list : list Sample) (stdout : list string) : list Sample * list string :=
  match audio_file_list with
  | [] => (sample_list, stdout)
  | audio_file :: rest =>
      let stdout := stdout ++ ["Reading in metadata of file " +:+ audio_file] in
      match from_path audio_file with
      | Failed _ =>
          read_samples audio_path rest sample_list
            (stdout ++ ["Skipping sample at path " +:+ audio_path])
      | Done sample => read_samples audio_path rest (sample_list ++ [sample]) stdout
      end
  end.

Definition get_samples_in_folder (audio_path extension : string) (stdout : list string)
  : outcome (list Sample) * list string :=
  let audio_file_list := getAllFilesOfType audio_path extension in
  let '(sample_list, stdout) := read_samples audio_path audio_file_list [] stdout in
  if bool_decide (0 < length sample_list)%nat then (Done sample_list, stdout)
  else (Failed (Builtin AssertionError), stdout).

Definition getFullFMA (audio_path : string) := get_samples_in_folder audio_path "mp3".

Definition getLooperman (audio_path : string) := get_samples_in_folder audio_path "mp3".

(** The sample of a file that can be read. *)
Definition readable (audio_file : string) : option Sample :=
  match from_path audio_file with
  | Done sample => Some sample
  | Failed _ => None
  end.

(** The lines printed for one file. *)
Definition file_lines (audio_path audio_file : string) : list string :=
  ("Reading in metadata of file " +:+ audio_file)
  :: match from_path audio_file with
     | Done _ => []
     | Failed _ => ["Skipping sample at path " +:+ audio_path]
     end.

End FolderCode.

End Folder.

(** ** The FMA loaders [getVocalFMA], [getFMAGenre] and [getPopFMA]
    (Wave-U-Net/Datasets.py, lines 79-106 and 244-268) *)

Module Fma.
Import Datasets.

(** [str(n)] for an integer. *)
Definition py_str (n : Z) : string := pretty n.

(** The character [0]. *)
Definition zero_char : Ascii.ascii := Ascii.ascii_of_nat 48.

Fixpoint zeros (n : nat) : string :=
  match n with
  | O => EmptyString
  | S n' => String zero_char (zeros n')
  end.

(** ['{:0wd}'.format(n)]: the sign, then zeros up to the width, then the
    digits. *)
Definition format_0d (w : nat) (n : Z) : string :=
  let sign := if n <? 0 then "-" else EmptyString in
  let digits := pretty (Z.abs n) in
  sign +:+ zeros (w - String.length sign - String.length digits) +:+ digits.

(** [sub in s] *)
Definition py_contains (s sub : string) : bool :=
  bool_decide (is_Some (String.index 0 sub s)).

(** Lines 94-97 and 256-259: the file of a track. *)
Definition fma_filename (track_id : Z) : string := format_0d 6 track_id +:+ ".mp3".

Definition fma_foldername (track_id : Z) : string := format_0d 3 (track_id / 1000).

Definition fma_audio_file (audio_path : string) (track_id : Z) : string :=
  path_join (path_join (path_join audio_path "fma_full") (fma_foldername track_id))
    (fma_filename track_id).

(** The three digits of a number below 1000. *)
Definition three_digits (y : N) : string :=
  String (pretty_N_char (y / 100))
    (String (pretty_N_char ((y / 10) mod 10))
       (String (pretty_N_char (y mod 10)) EmptyString)).

Section FmaCode.

(** Opening the csv file and reading its rows with [csv.DictReader],
    [int] on a string, [Sample.from_path], and the text printed for an
    exception. *)
Variable read_csv : string -> outcome (list (gmap string string)).
Variable py_int : string -> outcome Z.
Variable from_path : string -> outcome Sample.
Variable exn_message : dexn -> string.

(** Lines 93-105 and 255-267: the body for a selected row. *)
Definition fma_row (audio_path : string) (row : gmap string string)
    (sample_list : list Sample) (stdout : list string)
  : outcome (list Sample) * list string :=
  match row !! "track_id"%string with
  | None => (Failed KeyError, stdout)
  | Some text =>
      match py_int text with
      | Failed e => (Failed e, stdout)
      | Done track_id =>
          let audio_file := fma_audio_file audio_path track_id in
          let stdout := stdout ++ ["Reading in metadata of file " +:+ audio_file] in
          match from_path audio_file with
          | Failed e =>
              (Done sample_list,
               stdout ++ ["Skipping sample at path " +:+ audio_file; exn_message e])
          | Done sample => (Done (sample_list ++ [sample]), stdout)
          end
      end
  end.

(** Line 92 *)
Definition vocal_row (row : gmap string string) : outcome bool :=
  match row !! "track_instrumental"%string with
  | None => Failed KeyError
  | Some text => v <~ py_int text ;; Done (v =? 0)
  end.

(** Line 254 *)
Definition genre_row (genre_id : Z) (row : gmap string string) : outcome bool :=
  match row !! "track_genres"%string with
  | None => Failed KeyError
  | Some text => Done (py_contains text ("genre_id': '" +:+ py_str genre_id +:+ "'"))
  end.

Fixpoint fma_rows (select : gmap string string -> outcome bool) (audio_path : string)
    (rows : list (gmap string string)) (sample_list : list Sample) (stdout : list string)
  : outcome (list Sample) * list string :=
  match rows with
  | [] => (Done sample_list, stdout)
  | row :: rest =>
      match select row with
      | Failed e => (Failed e, stdout)
      | Done false => fma_rows select audio_path rest sample_list stdout
      | Done true =>
          match fma_row audio_path row sample_list stdout with
          | (Done sample_list, stdout) => fma_rows select audio_path rest sample_list stdout
          | (Failed e, stdout) => (Failed e, stdout)
          end
      end
  end.

Definition getVocalFMA (database_path : string) (audio_path : option string)
    (stdout : list string) : outcome (list Sample) * list string :=
  let audio_path := default database_path audio_path in
  let track_csv := path_join (path_join database_path "fma_metadata") "raw_tracks.csv" in
  match read_csv track_csv with
  | Failed e => (Failed e, stdout)
  | Done rows => fma_rows vocal_row audio_path rows [] stdout
  end.

Definition getFMAGenre (genre_id : Z) (database_path : string) (audio_path : option string)
    (stdout : list string) : outcome (list Sample) * list string :=
  let audio_path := default database_path audio_path in
  let track_csv := path_join (path_join database_path "fma_metadata") "raw_tracks.csv" in
  match read_csv track_csv with
  | Failed e => (Failed e, stdout)
  | Done rows => fma_rows (genre_row genre_id) audio_path rows [] stdout
  end.

Definition getPopFMA (database_path : string) (audio_path : option string) :=
  getFMAGenre 10 database_path audio_path.

(** The integer in a column of a row, when the column is there and [int]
    accepts its text. *)
Definition row_int (key : string) (row : gmap string string) : option Z :=
  match row !! key with
  | Some text => match py_int text with
                 | Done v => Some v
                 | Failed _ => None
                 end
  | None => None
  end.

(** The sample a row contributes: that of its file, for a track that is
    not instrumental and whose file can be read. *)
Definition vocal_sample (audio_path : string) (row : gmap string string) : option Sample :=
  match row_int "track_instrumental" row, row_int "track_id" row with
  | Some 0, Some track_id =>
      match from_path (fma_audio_file audio_path track_id) with
      | Done sample => Some sample
      | Failed _ => None
      end
  | _, _ => None
  end.

End FmaCode.

End Fma.

(** ** [convert_float_to_pcm] (Wave-U-Net/Datasets.py, lines 108-111) *)

Module Pcm.




Section PcmCode.

(** The cast of a value that int16 cannot hold, infinities and NaN
    included, which C leaves to the platform. *)
Variable cast_out_of_range : npfloat -> Z.



End PcmCode.

End Pcm.

(** ** Small instances of the dataset code *)

Module DatasetExamples.
Import Datasets.

(** A track folder that lists the mix first and the instruments in the
    order of their indices, and one that lists a violin before the mix. *)
Definition sorted_listdir (p : string) : outcome (list string) :=
  Done ["AuMix_01_J.wav"; "AuSep_1_bn_01_J.wav"; "AuSep_2_vn_01_J.wav"; "notes.txt"]%string.

Definition shuffled_listdir (p : string) : outcome (list string) :=
  Done ["AuSep_2_vn_01_J.wav"; "AuMix_01_J.wav"; "AuSep_1_bn_01_J.wav"; "notes.txt"]%string.

Definition short_sf_read (p : string) : outcome (nat * nat * Z) :=
  Done (1000%nat, 1%nat, 10).

Definition tuple_of (track : outcome (list Sample)) : list Sample :=
  match track with
  | Done samples => samples
  | Failed _ => []
  end.

Definition sorted_track : list Sample :=
  tuple_of (Urmp.urmp_track sorted_listdir short_sf_read "db/train" "01").

Definition shuffled_track : list Sample :=
  tuple_of (Urmp.urmp_track shuffled_listdir short_sf_read "db/train" "01").

(** One song on disk, with audio as lists of integers. *)
Definition song_files : Subtract.AudioFiles (list Z) := {|
  Subtract.dirname := fun _ => "/data/song1"%string;
  Subtract.extension := fun _ => ".wav"%string;
  Subtract.audio_sub := fun a b => Done (zip_with Z.sub a b);
  Subtract.in_range := fun a => Done (forallb (fun v => (-1 <=? v) && (v <=? 1)) a)
|}.

Definition song_disk : Subtract.disk (list Z) :=
  Subtract.Disk
    (<["/data/song1/mix.wav"%string := ([3; 4], 44100)]>
       (<["/data/song1/vocals.wav"%string := ([1; 1], 44100)]> ∅))
    [].

Definition song_run : outcome (list string) * Subtract.disk (list Z) :=
  @Subtract.subtract_audio (list Z) song_files
    ["/data/song1/mix.wav"%string] ["/data/song1/vocals.wav"%string] song_disk.

(** A folder with two files, one of which can be read. *)
Definition music_walk (p : string) : list (string * list string * list string) :=
  [(p, [], ["a.mp3"; "b.mp3"]%string)].

Definition keep_all (filenames : list string) (pattern : string) : list string :=
  filenames.

Definition music_from_path (p : string) : outcome Sample :=
  if String.eqb p "music/a.mp3" then Done (MkSample p 44100 2 10) else Failed IOError.

(** A csv file with one track that is not instrumental. *)
Definition one_row_csv (p : string) : outcome (list (gmap string string)) :=
  Done [<["track_id"%string := "12345"%string]>
          (<["track_instrumental"%string := "0"%string]> ∅)].

Definition two_numbers (text : string) : outcome Z :=
  if String.eqb text "0" then Done 0
  else if String.eqb text "12345" then Done 12345
       else Failed (Builtin ValueError).

Definition any_from_path (p : string) : outcome Sample := Done (MkSample p 44100 2 10).

Definition no_message (e : dexn) : string := EmptyString.


(** A one-dimensional array, as a track without a channel axis. *)
Definition flat_audio : ndarray Z := NdArray [3%nat] [1; 2; 3].

End DatasetExamples.

(** * Properties *)

Import IntAudio.

(** ** The error monad *)

Lemma bind_ok {T U : Type} (c : result T) (k : T -> result U) (v : T) :
  c = Ok v -> bind c k = k v.
Proof. intros ->. reflexivity. Qed.

Lemma bind_ok_inv {T U : Type} (c : result T) (k : T -> result U) (u : U) :
  bind c k = Ok u -> exists v, c = Ok v /\ k v = Ok u.
Proof. destruct c as [v|e]; simpl; [eauto | discriminate]. Qed.

Lemma for_each_nil {S X : Type} (body : S -> X -> result S) (s : S) :
  for_each [] body s = Ok s.
Proof. reflexivity. Qed.

Lemma foldl_raise {S X : Type} (body : S -> X -> result S) (xs : list X) (e : exn) :
  foldl (fun acc x => s' <- acc ;; body s' x) (Raise e) xs = Raise e.
Proof. induction xs as [|x xs IH]; simpl; [reflexivity | exact IH]. Qed.

Lemma for_each_cons {S X : Type} (body : S -> X -> result S) (x : X) (xs : list X) (s : S) :
  for_each (x :: xs) body s = (s' <- body s x ;; for_each xs body s').
Proof.
  unfold for_each. simpl. destruct (body s x) as [s'|e]; simpl.
  - reflexivity.
  - apply foldl_raise.
Qed.

Lemma for_each_app {S X : Type} (body : S -> X -> result S) (xs ys : list X) (s : S) :
  for_each (xs ++ ys) body s = (s' <- for_each xs body s ;; for_each ys body s').
Proof.
  revert s. induction xs as [|x xs IH]; intros s.
  - reflexivity.
  - simpl app. rewrite !for_each_cons. destruct (body s x) as [s'|e]; simpl.
    + apply IH.
    + reflexivity.
Qed.

(** ** Float arithmetic on finite values *)

Section FloatFacts.
Open Scope R_scope.



Lemma Rsign_neg_true r : r < 0 -> Rsign_neg r = true.
Proof. intros Hr. unfold Rsign_neg. destruct (Rlt_dec r 0); [reflexivity | contradiction]. Qed.













End FloatFacts.

(** ** [alpha_snr] *)

Section AlphaSnr.
Open Scope R_scope.





Lemma sum_cons_NaN (l : list npfloat) : Float.sum (NaN :: l) = NaN.
Proof. reflexivity. Qed.







End AlphaSnr.

(** ** [write_wav_skip_existing] *)

Section FilesFacts.
Import Files.
Context {A : Type}.

Lemma path_exists_true (w : world A) (path : string) (f : wav_file A) :
  fs w !! path = Some f -> path_exists w path = true.
Proof. intros Hf. unfold path_exists. apply bool_decide_eq_true. eauto. Qed.

Lemma path_exists_false (w : world A) (path : string) :
  fs w !! path = None -> path_exists w path = false.
Proof.
  intros Hf. unfold path_exists. apply bool_decide_eq_false.
  rewrite Hf. intros [f Hs]. discriminate.
Qed.

(** Claim C9.
    [write_wav_skip_existing] writes the audio to [path] only if no file
    exists there; if a file exists, the file system is left as it was (so
    the existing file keeps its contents) and only a warning is printed;
    no other path is ever touched. *)
Theorem write_wav_skip_existing_frame
    (path : string) (y : ndarray A) (sr : Z) (norm : bool) (w : world A) :
  (fs w !! path = None ->
   fs (write_wav_skip_existing path y sr norm w) = <[path := WavFile y sr "PCM_16"]> (fs w)
   /\ stdout (write_wav_skip_existing path y sr norm w) = stdout w)
  /\ (forall f : wav_file A,
        fs w !! path = Some f ->
        fs (write_wav_skip_existing path y sr norm w) = fs w
        /\ fs (write_wav_skip_existing path y sr norm w) !! path = Some f
        /\ exists warning : string,
             stdout (write_wav_skip_existing path y sr norm w) = stdout w ++ [warning])
  /\ (forall other : string,
        other <> path ->
        fs (write_wav_skip_existing path y sr norm w) !! other = fs w !! other).
Proof.
  unfold write_wav_skip_existing. split; [|split].
  - intros Hnone. rewrite path_exists_false by assumption. split; reflexivity.
  - intros f Hf. rewrite (path_exists_true _ _ f) by assumption. simpl.
    split; [reflexivity|]. split; [assumption|]. eauto.
  - intros other Hne. destruct (path_exists w path); simpl; [reflexivity|].
    apply lookup_insert_ne. congruence.
Qed.

End FilesFacts.

Lemma write_wav_skip_existing_frame_witness :
  Files.fs (Files.write_wav_skip_existing "a.wav" (NdArray [1%nat; 1%nat] [9]) 22050 false
              Files.one_file_world)
    !! "a.wav"%string = Some Files.old_wav.
Proof.
  apply (proj1 (proj2 (write_wav_skip_existing_frame "a.wav"
                         (NdArray [1%nat; 1%nat] [9]) 22050 false Files.one_file_world))
           Files.old_wav).
  reflexivity.
Defined.

(** ** [predict_track]: the shape check *)

Section ShapeCheck.
Context {A : Type} `{Sample A} `{Librosa A}.

(** Claim C4.
    For a mixture that is not two-dimensional, [predict_track] fails at
    its first statement with the assertion's exception, whatever the
    session and the resampler would do: nothing is adapted, resampled or
    inferred before the failure. *)
Theorem predict_track_rejects_non_2d
    (cfg : model_config) (sess : inference) (mix_audio : ndarray A) (mix_sr : Z)
    (sep_input_shape sep_output_shape : Z * Z * Z) :
  ndim mix_audio <> 2%nat ->
  predict_track cfg sess mix_audio mix_sr sep_input_shape sep_output_shape
  = Raise AssertionError.
Proof.
  intros Hnd. unfold predict_track.
  rewrite bool_decide_eq_false_2 by exact Hnd. reflexivity.
Qed.

End ShapeCheck.

Lemma predict_track_rejects_non_2d_witness :
  predict_track (ModelConfig false 22050 2 "voice") IntAudio.failing_session
    (NdArray [3%nat] [1; 2; 3]) 44100 (1, 6, 2) (1, 4, 2)
  = Raise AssertionError.
Proof.
  apply predict_track_rejects_non_2d. unfold ndim. simpl. lia.
Defined.

(** ** The order of [np.sort] and statistics of permuted scores *)

Section MetricsOrder.
Import Metrics.















End MetricsOrder.

(** ** Accumulating score files *)

Section Accumulate.
Import Metrics.

(** The inner loop over the targets of one file appends, target by
    target, the file's scores to the accumulated lists. *)
Lemma extend_loop (ts pre_t : list target) (pre lists : list (list npfloat)) :
  length pre = length pre_t ->
  length lists = length ts ->
  for_each (seq (length pre) (length ts))
    (fun lists i =>
       t <- py_index (pre_t ++ ts) i ;; extend_at lists i (map SDR (frames t)))
    (pre ++ lists)
  = Ok (pre ++ zip_with app lists (map (fun t => map SDR (frames t)) ts)).
Proof.
  revert pre_t pre lists.
  induction ts as [|t ts IH]; intros pre_t pre lists Hpre Hlen.
  - destruct lists; [|discriminate]. reflexivity.
  - destruct lists as [|l lists]; [discriminate|]. simpl in Hlen.
    simpl length. simpl seq. rewrite for_each_cons.
    unfold py_index at 1. rewrite list_lookup_middle by congruence. simpl bind.
    unfold extend_at at 1, py_index at 1.
    rewrite list_lookup_middle by reflexivity. simpl bind.
    rewrite insert_app_r_alt by lia. rewrite Nat.sub_diag. simpl insert.
    specialize (IH (pre_t ++ [t]) (pre ++ [l ++ map SDR (frames t)]) lists).
    rewrite !length_app, <- !app_assoc in IH. simpl in IH.
    rewrite !Nat.add_1_r in IH.
    rewrite IH by congruence. reflexivity.
Qed.

Lemma accumulate_uniform (acc : option (list (list npfloat))) (js : score_file)
    (lists : list (list npfloat)) :
  lists = match acc with
          | None => replicate (length (targets js)) []
          | Some lists => lists
          end ->
  length lists = length (targets js) ->
  accumulate acc js = Ok (Some (zip_with app lists (column js))).
Proof.
  intros Hl Hlen. unfold accumulate. rewrite <- Hl.
  pose proof (extend_loop (targets js) [] [] lists eq_refl Hlen) as Hloop.
  simpl in Hloop. rewrite Hloop. reflexivity.
Qed.







End Accumulate.

(** ** [compute_mean_metrics] *)

Section MetricsFacts.
Import Metrics.
















(** Claim C10.
    For a folder without score files [compute_mean_metrics] raises: the
    accumulator is still [None] when the code iterates over it; so a
    caller gets a result only when at least one score file is present. *)
Theorem compute_mean_metrics_empty_folder :
  (forall compute_averages : bool,
     compute_mean_metrics [] compute_averages = Raise TypeError)
  /\ (forall (files : list score_file) (compute_averages : bool) (m : metrics),
        compute_mean_metrics files compute_averages = Ok m -> files <> []).
Proof.
  split.
  - intros b. reflexivity.
  - intros files b m Hm ->. discriminate Hm.
Qed.

End MetricsFacts.



Lemma compute_mean_metrics_empty_folder_witness :
  Metrics.compute_mean_metrics [] true = Raise TypeError
  /\ [Metrics.ScoreFile []] <> [].
Proof.
  split.
  - apply (proj1 compute_mean_metrics_empty_folder).
  - apply (proj2 compute_mean_metrics_empty_folder [Metrics.ScoreFile []] false
             (Metrics.Distributions [])).
    reflexivity.
Defined.

(** ** Arrays: rows, slices and slice assignment *)

Section ArrayFacts.
Context {A : Type} `{Sample A}.

Lemma chunk_concat (c : nat) (rs : list (list A)) :
  Forall (fun r => length r = c) rs ->
  map (fun i => take c (drop (i * c) (concat rs))) (seq 0 (length rs)) = rs.
Proof.
  induction 1 as [|r rs Hr _ IH]; [reflexivity|].
  simpl length. simpl seq. simpl map. f_equal.
  - simpl. rewrite drop_0, take_app_length' by congruence. reflexivity.
  - rewrite <- fmap_S_seq, <- list_fmap_compose.
    rewrite <- IH at 2. apply map_ext. intros i. simpl.
    rewrite <- Hr at 2. rewrite drop_app_add. reflexivity.
Qed.

Lemma rows2_of_rows (c : nat) (rs : list (list A)) :
  Forall (fun r => length r = c) rs -> rows2 (of_rows c rs) = rs.
Proof. intros Hrs. unfold rows2, of_rows, dim. simpl. apply chunk_concat, Hrs. Qed.

Lemma rows2_length (a : ndarray A) : length (rows2 a) = dim a 0.
Proof. unfold rows2. now rewrite length_map, length_seq. Qed.

Lemma rows2_widths (a : ndarray A) :
  (dim a 0 * dim a 1 <= length (data a))%nat ->
  Forall (fun r => length r = dim a 1) (rows2 a).
Proof.
  intros Hlen. unfold rows2. apply Forall_map, Forall_forall.
  intros i Hi. apply elem_of_seq in Hi.
  rewrite length_take, length_drop. nia.
Qed.

Lemma concat_replicate_replicate (n c : nat) (z : A) :
  concat (replicate n (replicate c z)) = replicate (n * c) z.
Proof.
  induction n as [|n IH]; [reflexivity|].
  simpl. rewrite IH, replicate_add. reflexivity.
Qed.

Lemma np_zeros_rows (n c : nat) :
  np_zeros [n; c] = of_rows c (replicate n (replicate c zero)).
Proof.
  unfold np_zeros, of_rows. rewrite length_replicate, concat_replicate_replicate.
  simpl. rewrite Nat.mul_1_r. reflexivity.
Qed.

Lemma slice_bound_inside (n : nat) (i : Z) :
  0 <= i <= Z.of_nat n -> slice_bound n i = Z.to_nat i.
Proof.
  intros Hi. unfold slice_bound.
  destruct (decide (i < 0)); [lia|]. f_equal. lia.
Qed.

Lemma index0_batch (part : ndarray A) (o c : nat) :
  shape part = [1%nat; o; c] ->
  index0 part = Ok (NdArray [o; c] (take (o * c) (data part))).
Proof. intros Hs. unfold index0. rewrite Hs. reflexivity. Qed.

Lemma write_rows_length (s k : nat) (rows new : list (list A)) :
  length new = k -> (s + k <= length rows)%nat ->
  length (write_rows s k rows new) = length rows.
Proof.
  intros Hnew Hb. unfold write_rows.
  rewrite !length_app, length_take, length_drop. lia.
Qed.

Lemma write_rows_widths (c s k : nat) (rows new : list (list A)) :
  Forall (fun r => length r = c) rows ->
  Forall (fun r => length r = c) new ->
  Forall (fun r => length r = c) (write_rows s k rows new).
Proof.
  intros Hr Hn. unfold write_rows.
  repeat apply Forall_app_2; auto using Forall_take, Forall_drop.
Qed.

Lemma write_rows_lookup (s k : nat) (rows new : list (list A)) (p : nat) :
  length new = k -> (s + k <= length rows)%nat ->
  write_rows s k rows new !! p =
  if decide (s <= p < s + k)%nat then new !! (p - s)%nat else rows !! p.
Proof.
  intros Hnew Hb. unfold write_rows.
  destruct (decide (s <= p < s + k)%nat) as [Hin|Hout].
  - rewrite lookup_app_r by (rewrite length_take; lia).
    rewrite length_take, Nat.min_l by lia.
    rewrite lookup_app_l by lia. reflexivity.
  - destruct (decide (p < s)%nat).
    + rewrite lookup_app_l by (rewrite length_take; lia).
      apply lookup_take_lt. lia.
    + rewrite lookup_app_r by (rewrite length_take; lia).
      rewrite length_take, Nat.min_l by lia.
      rewrite lookup_app_r by lia.
      rewrite lookup_drop. f_equal. lia.
Qed.

Lemma assign_rows_inside (c : nat) (rows : list (list A)) (pos o : Z) (v : ndarray A) :
  Forall (fun r => length r = c) rows ->
  0 <= pos -> 0 <= o -> pos + o <= Z.of_nat (length rows) ->
  shape v = [Z.to_nat o; c] ->
  assign_rows (of_rows c rows) pos (pos + o) v =
  Ok (of_rows c (write_rows (Z.to_nat pos) (Z.to_nat o) rows (rows2 v))).
Proof.
  intros Hrows Hpos Ho Hb Hv. unfold assign_rows.
  change (dim (of_rows c rows) 0) with (length rows).
  change (dim (of_rows c rows) 1) with c.
  rewrite !slice_bound_inside by lia.
  replace (Z.to_nat (pos + o) - Z.to_nat pos)%nat with (Z.to_nat o) by lia.
  unfold broadcast_rows, ndim, dim. rewrite Hv. simpl nth. simpl length.
  destruct (decide (2%nat = 2%nat /\ (c = c \/ c = 1%nat))) as [_|Hn]; [|tauto].
  destruct (decide (Z.to_nat o = Z.to_nat o)) as [_|Hn]; [|congruence].
  destruct (decide (c = c)) as [_|Hn]; [|congruence].
  rewrite map_id. simpl bind.
  rewrite rows2_of_rows by assumption.
  unfold of_rows. f_equal.
  rewrite write_rows_length; [reflexivity| |lia].
  rewrite rows2_length. unfold dim. rewrite Hv. reflexivity.
Qed.

End ArrayFacts.

(** ** Saving the predictions of one window *)

Section SavePredictions.
Context {A : Type} `{Sample A} `{Librosa A}.

Lemma output_rows_shaped (o c : nat) (part : ndarray A) :
  window_shaped o c part ->
  index0 part = Ok (NdArray [o; c] (take (o * c) (data part)))
  /\ length (output_rows part) = o
  /\ Forall (fun r => length r = c) (output_rows part).
Proof.
  intros [Hs Hwf]. pose proof (index0_batch part o c Hs) as Hi.
  split; [exact Hi|]. unfold output_rows. rewrite Hi. split.
  - apply rows2_length.
  - apply (rows2_widths (NdArray [o; c] (take (o * c) (data part)))).
    unfold dim. simpl.
    red in Hwf. rewrite Hs in Hwf. simpl in Hwf.
    rewrite length_take. lia.
Qed.

Lemma save_prediction_step (c : nat) (pos o : Z)
    (ppre ppost : list (ndarray A)) (part : ndarray A)
    (pre post : list (ndarray A)) (rows : list (list A)) :
  length pre = length ppre ->
  window_shaped (Z.to_nat o) c part ->
  Forall (fun r => length r = c) rows ->
  0 <= pos -> 0 <= o -> pos + o <= Z.of_nat (length rows) ->
  save_prediction (ppre ++ part :: ppost) pos o (pre ++ of_rows c rows :: post) (length pre)
  = Ok (pre ++ of_rows c (write_rows (Z.to_nat pos) (Z.to_nat o) rows (output_rows part))
          :: post).
Proof.
  intros Hpre Hpart Hrows Hpos Ho Hb.
  destruct (output_rows_shaped _ _ _ Hpart) as (Hi & _ & _).
  unfold save_prediction, py_index.
  rewrite list_lookup_middle by congruence. simpl bind. rewrite Hi. simpl bind.
  rewrite list_lookup_middle by reflexivity. simpl bind.
  rewrite assign_rows_inside; [|assumption..|reflexivity]. simpl bind.
  rewrite insert_app_r_alt by lia. rewrite Nat.sub_diag. simpl insert.
  unfold output_rows. rewrite Hi. reflexivity.
Qed.

Lemma save_loop (c : nat) (pos o : Z) (parts ppre : list (ndarray A))
    (pre : list (ndarray A)) (bufs : list (list (list A))) :
  length pre = length ppre ->
  length bufs = length parts ->
  Forall (window_shaped (Z.to_nat o) c) parts ->
  Forall (fun rows => Forall (fun r => length r = c) rows
                      /\ pos + o <= Z.of_nat (length rows)) bufs ->
  0 <= pos -> 0 <= o ->
  for_each (seq (length pre) (length parts)) (save_prediction (ppre ++ parts) pos o)
    (pre ++ map (of_rows c) bufs)
  = Ok (pre ++ map (of_rows c)
                 (zip_with (fun rows part =>
                              write_rows (Z.to_nat pos) (Z.to_nat o) rows (output_rows part))
                    bufs parts)).
Proof.
  intros Hpre Hlen Hparts Hbufs Hpos Ho.
  revert ppre pre bufs Hpre Hlen Hbufs.
  induction Hparts as [|part parts Hpart _ IH]; intros ppre pre bufs Hpre Hlen Hbufs.
  - destruct bufs; [|discriminate]. reflexivity.
  - destruct bufs as [|rows bufs]; [discriminate|]. simpl in Hlen.
    inversion Hbufs as [|? ? [Hrows Hb] Hbufs']; subst.
    simpl length. simpl seq. rewrite for_each_cons. simpl map.
    rewrite save_prediction_step by assumption. simpl bind.
    specialize (IH (ppre ++ [part])
                  (pre ++ [of_rows c (write_rows (Z.to_nat pos) (Z.to_nat o) rows
                                        (output_rows part))]) bufs).
    rewrite !length_app, <- !app_assoc in IH. simpl in IH.
    rewrite !Nat.add_1_r in IH.
    rewrite IH by (congruence || assumption). reflexivity.
Qed.

Lemma save_predictions_all (c : nat) (pos o : Z) (parts : list (ndarray A))
    (bufs : list (list (list A))) :
  length bufs = length parts ->
  Forall (window_shaped (Z.to_nat o) c) parts ->
  Forall (fun rows => Forall (fun r => length r = c) rows
                      /\ pos + o <= Z.of_nat (length rows)) bufs ->
  0 <= pos -> 0 <= o ->
  save_predictions (length parts) parts pos o (map (of_rows c) bufs)
  = Ok (map (of_rows c)
          (zip_with (fun rows part =>
                       write_rows (Z.to_nat pos) (Z.to_nat o) rows (output_rows part))
             bufs parts)).
Proof.
  intros Hlen Hparts Hbufs Hpos Ho.
  exact (save_loop c pos o parts [] [] bufs eq_refl Hlen Hparts Hbufs Hpos Ho).
Qed.

End SavePredictions.

Section WindowStep.
Context {A : Type} `{Sample A} `{Librosa A}.

Lemma map_by_index {X Y : Type} (f : X -> Y) (d : Y) (l : list X) :
  map (fun i => match l !! i with Some x => f x | None => d end) (seq 0 (length l))
  = map f l.
Proof.
  induction l as [|x l IH]; [reflexivity|].
  simpl. f_equal. rewrite <- fmap_S_seq, <- list_fmap_compose. exact IH.
Qed.

Lemma zip_with_maps {X Y Z' : Type} (f : X -> Y -> Z') (g : nat -> X) (h : nat -> Y)
    (l : list nat) :
  zip_with f (map g l) (map h l) = map (fun i => f (g i) (h i)) l.
Proof. induction l as [|i l IH]; simpl; [reflexivity | now rewrite IH]. Qed.

Lemma window_outputs_of_session (sess : inference) (padded : ndarray A) (I : Z)
    (pos : Z) (parts : list (ndarray A)) :
  sess (mix_part_at padded pos I) = Ok parts ->
  map output_rows parts
  = map (fun i => window_output sess padded I i pos) (seq 0 (length parts)).
Proof.
  intros Hs. unfold window_output. rewrite Hs. symmetry. apply map_by_index.
Qed.

Lemma window_output_shaped (sess : inference) (padded : ndarray A) (I : Z)
    (n i o c : nat) (pos : Z) :
  session_ok sess n (Z.to_nat I) o c ->
  shape (mix_part_at padded pos I) = [1%nat; Z.to_nat I; c] ->
  (i < n)%nat ->
  length (window_output sess padded I i pos) = o
  /\ Forall (fun r => length r = c) (window_output sess padded I i pos).
Proof.
  intros Hsess Hw Hi. destruct (Hsess _ Hw) as (parts & Hrun & Hlen & Hparts).
  unfold window_output. rewrite Hrun.
  destruct (lookup_lt_is_Some_2 parts i) as [part Hpart]; [lia|].
  rewrite Hpart. rewrite Forall_lookup in Hparts.
  destruct (output_rows_shaped _ _ _ (Hparts _ _ Hpart)) as (_ & Hl & Hr).
  split; assumption.
Qed.

Lemma predict_window_step (cfg : model_config) (sess : inference) (padded : ndarray A)
    (Ln c : nat) (I O : Z) (g : nat -> list (list A)) (pos : Z) :
  let L := Z.of_nat Ln in
  let pos' := clamp_pos pos L O in
  session_ok sess (num_sources cfg) (Z.to_nat I) (Z.to_nat O) c ->
  shape (mix_part_at padded pos' I) = [1%nat; Z.to_nat I; c] ->
  (forall i, (i < num_sources cfg)%nat ->
             length (g i) = Ln /\ Forall (fun r => length r = c) (g i)) ->
  0 <= pos' -> 0 <= O -> pos' + O <= L ->
  predict_window cfg sess padded L I O
    (map (fun i => of_rows c (g i)) (seq 0 (num_sources cfg))) pos
  = Ok (map (fun i => of_rows c
                        (write_rows (Z.to_nat pos') (Z.to_nat O) (g i)
                           (window_output sess padded I i pos')))
          (seq 0 (num_sources cfg))).
Proof.
  intros L pos' Hsess Hw Hg Hpos HO Hb.
  destruct (Hsess _ Hw) as (parts & Hrun & Hlen & Hparts).
  unfold predict_window. fold L. fold pos'. rewrite Hrun. simpl bind.
  rewrite <- Hlen at 1.
  assert (Hpre : map (fun i => of_rows c (g i)) (seq 0 (num_sources cfg))
                 = map (of_rows c) (map g (seq 0 (num_sources cfg))))
    by (rewrite map_map; reflexivity).
  rewrite Hpre.
  rewrite save_predictions_all; try assumption.
  - f_equal.
    rewrite <- (zip_with_fmap_r
                  (fun rows out => write_rows (Z.to_nat pos') (Z.to_nat O) rows out)
                  output_rows).
    change (output_rows <$> parts) with (map output_rows parts).
    rewrite (window_outputs_of_session _ _ _ _ _ Hrun), Hlen.
    rewrite zip_with_maps, map_map. reflexivity.
  - rewrite length_map, length_seq. congruence.
  - apply Forall_map, Forall_forall. intros i Hi. apply elem_of_seq in Hi.
    destruct (Hg i) as [Hl Hr]; [lia|]. cbn. split; [exact Hr|]. subst L. lia.
Qed.

End WindowStep.

(** ** Pasting windows on the regular grid and at the end *)

Section Grid.
Context {A : Type} `{Sample A}.
Variable out : Z -> list (list A).
Variables (L O : Z).
Hypothesis O_pos : 0 < O.

Lemma paste_snoc (rows : list (list A)) (starts : list Z) (s : Z) :
  paste_rows out O rows (starts ++ [s])
  = write_rows (Z.to_nat s) (Z.to_nat O) (paste_rows out O rows starts) (out s).
Proof. unfold paste_rows. rewrite foldl_app. reflexivity. Qed.

Lemma grid_cell (p k : Z) : k * O <= p < k * O + O -> p / O = k /\ p mod O = p - k * O.
Proof.
  intros Hp. assert (Hk : p / O = k).
  { symmetry. apply (Z.div_unique p O k (p - k * O)); lia. }
  split; [exact Hk|]. rewrite Z.mod_eq by lia. rewrite Hk. lia.
Qed.

Lemma paste_grid (rows0 : list (list A)) (j : nat) :
  Z.of_nat (length rows0) = L ->
  Z.of_nat j * O <= L ->
  (forall k, 0 <= k < Z.of_nat j -> length (out (k * O)) = Z.to_nat O) ->
  let rows := paste_rows out O rows0 (map (fun k => k * O) (seqZ 0 (Z.of_nat j))) in
  length rows = length rows0
  /\ forall p, 0 <= p < Z.of_nat j * O ->
       rows !! Z.to_nat p = out (O * (p / O)) !! Z.to_nat (p mod O).
Proof.
  intros HL. induction j as [|j IH]; intros Hj Hout; cbv zeta.
  - split; [reflexivity|]. intros p Hp. lia.
  - rewrite seqZ_S, map_app. cbn [map]. rewrite paste_snoc, Z.add_0_l.
    destruct IH as [IHlen IHrows]; [lia | intros k Hk; apply Hout; lia |].
    split.
    + rewrite write_rows_length; [exact IHlen | apply Hout; lia | lia].
    + intros p Hp.
      rewrite write_rows_lookup; [|apply Hout; lia | lia].
      destruct (decide (Z.to_nat (Z.of_nat j * O) <= Z.to_nat p
                        < Z.to_nat (Z.of_nat j * O) + Z.to_nat O)%nat) as [Hin|Hnin].
      * destruct (grid_cell p (Z.of_nat j)) as [Hq Hr]; [lia|].
        rewrite Hq, Hr, (Z.mul_comm O). f_equal. lia.
      * apply IHrows. lia.
Qed.

Lemma owner_offset (p : Z) :
  0 <= p < L -> O <= L ->
  0 <= p - owner L O p < O /\ 0 <= owner L O p /\ owner L O p + O <= L.
Proof.
  intros Hp HOL. unfold owner. destruct (decide (L - O <= p)); [lia|].
  pose proof (Z.mul_div_le p O O_pos).
  pose proof (Z.mul_succ_div_gt p O O_pos).
  assert (0 <= p / O) by (apply Z.div_pos; lia). nia.
Qed.

(** The rows of a buffer after the windows of the regular grid and then
    the window that ends at the end: every frame comes from its owner. *)
Lemma paste_tiling (rows0 : list (list A)) (j : nat) :
  Z.of_nat (length rows0) = L ->
  O <= L ->
  Z.of_nat j * O <= L ->
  L - O <= Z.of_nat j * O ->
  (forall k, 0 <= k < Z.of_nat j -> length (out (k * O)) = Z.to_nat O) ->
  length (out (L - O)) = Z.to_nat O ->
  let rows := paste_rows out O rows0 (map (fun k => k * O) (seqZ 0 (Z.of_nat j)) ++ [L - O]) in
  length rows = length rows0
  /\ forall p, 0 <= p < L ->
       rows !! Z.to_nat p = out (owner L O p) !! Z.to_nat (p - owner L O p).
Proof.
  intros HL HOL Hj Hlast Hout Houtl. cbv zeta. rewrite paste_snoc.
  destruct (paste_grid rows0 j HL Hj Hout) as [Hlen Hrows].
  split.
  - rewrite write_rows_length; [exact Hlen | exact Houtl | lia].
  - intros p Hp. rewrite write_rows_lookup; [|exact Houtl | lia].
    unfold owner.
    destruct (decide (L - O <= p)) as [Hge|Hlt].
    + destruct (decide (Z.to_nat (L - O) <= Z.to_nat p
                        < Z.to_nat (L - O) + Z.to_nat O)%nat); [|lia].
      f_equal. lia.
    + destruct (decide (Z.to_nat (L - O) <= Z.to_nat p
                        < Z.to_nat (L - O) + Z.to_nat O)%nat); [lia|].
      rewrite Hrows by lia. f_equal. rewrite Z.mod_eq by lia. lia.
Qed.

End Grid.

Section Positions.

Lemma window_count_bounds (L O : Z) :
  0 < O -> O <= L ->
  let m := (L - 0 + O - 1) / O in
  1 <= m /\ (m - 1) * O < L /\ L <= m * O.
Proof.
  intros HO HOL m.
  pose proof (Z.mul_div_le (L - 0 + O - 1) O HO) as H1.
  pose proof (Z.mul_succ_div_gt (L - 0 + O - 1) O HO) as H2.
  fold m in H1, H2. nia.
Qed.

End Positions.

(** ** The loop of [predict_track] *)

Section Loop.
Context {A : Type} `{Sample A} `{Librosa A}.

Lemma mix_part_shape (c : nat) (prows : list (list A)) (pos I : Z) :
  0 <= pos -> 0 <= I -> pos + I <= Z.of_nat (length prows) ->
  shape (mix_part_at (of_rows c prows) pos I) = [1%nat; Z.to_nat I; c].
Proof.
  intros Hpos HI Hb. unfold mix_part_at, np_expand_dims0, slice_rows.
  change (dim (of_rows c prows) 0) with (length prows).
  change (dim (of_rows c prows) 1) with c.
  rewrite !slice_bound_inside by lia. simpl. do 2 f_equal.
  rewrite length_take, length_drop, rows2_length.
  change (dim (of_rows c prows) 0) with (length prows). lia.
Qed.

Lemma shape_2d (a : ndarray A) : ndim a = 2%nat -> shape a = [dim a 0; dim a 1].
Proof.
  unfold ndim, dim. destruct (shape a) as [|x [|y [|z l]]]; simpl; intros Hn;
    try discriminate. reflexivity.
Qed.

Lemma ndim_transpose (a : ndarray A) : ndim (transpose a) = ndim a.
Proof.
  unfold transpose. destruct (decide (ndim a = 2%nat)) as [Hn|Hn].
  - rewrite Hn. reflexivity.
  - unfold ndim. simpl. apply length_reverse.
Qed.

Lemma dims_transpose (a : ndarray A) :
  ndim a = 2%nat ->
  dim (transpose a) 0 = dim a 1 /\ dim (transpose a) 1 = dim a 0.
Proof.
  intros Hn. unfold transpose. destruct (decide (ndim a = 2%nat)); [|contradiction].
  unfold of_rows, dim at 1 3. simpl. rewrite length_map, length_seq. split; reflexivity.
Qed.

Lemma replicate_as_map {X : Type} (n : nat) (x : X) :
  replicate n x = map (fun _ => x) (seq 0 n).
Proof.
  induction n as [|n IH]; [reflexivity|].
  simpl. f_equal. rewrite IH, <- fmap_S_seq, <- list_fmap_compose. reflexivity.
Qed.

Lemma tiling_loop (cfg : model_config) (sess : inference) (padded : ndarray A)
    (Ln c : nat) (I O : Z) (ps : list Z) :
  let L := Z.of_nat Ln in
  session_ok sess (num_sources cfg) (Z.to_nat I) (Z.to_nat O) c ->
  0 <= O ->
  Forall (fun pos' => 0 <= pos' /\ pos' + O <= L
                      /\ shape (mix_part_at padded pos' I) = [1%nat; Z.to_nat I; c])
    (map (fun p => clamp_pos p L O) ps) ->
  forall g : nat -> list (list A),
    (forall i, (i < num_sources cfg)%nat ->
               length (g i) = Ln /\ Forall (fun r => length r = c) (g i)) ->
    for_each ps (predict_window cfg sess padded L I O)
      (map (fun i => of_rows c (g i)) (seq 0 (num_sources cfg)))
    = Ok (map (fun i => of_rows c
                          (tiled_rows sess padded I O i (g i)
                             (map (fun p => clamp_pos p L O) ps)))
            (seq 0 (num_sources cfg))).
Proof.
  intros L Hsess HO. induction ps as [|pos ps IH]; intros Hps g Hg.
  - reflexivity.
  - simpl map in Hps. inversion Hps as [|? ? (Hpos & Hb & Hw) Hps']; subst.
    rewrite for_each_cons.
    rewrite (predict_window_step cfg sess padded Ln c I O g pos) by assumption.
    simpl bind.
    rewrite IH; [reflexivity | exact Hps' |].
    intros i Hi. destruct (Hg i Hi) as [Hl Hr].
    destruct (window_output_shaped sess padded I _ i _ c (clamp_pos pos L O) Hsess Hw Hi)
      as [Hol Hor].
    split.
    + rewrite write_rows_length; [exact Hl | exact Hol | subst L; lia].
    + apply write_rows_widths; assumption.
Qed.

Lemma clamped_positions (L O : Z) :
  0 < O -> O <= L ->
  let m := (L - 0 + O - 1) / O in
  map (fun p => clamp_pos p L O) (map (fun k => 0 + k * O) (seqZ 0 m))
  = map (fun k => k * O) (seqZ 0 (Z.of_nat (Z.to_nat (m - 1)))) ++ [L - O].
Proof.
  intros HO HOL m. destruct (window_count_bounds L O HO HOL) as (Hm & Hlo & Hhi).
  fold m in Hm, Hlo, Hhi.
  replace m with ((m - 1) + 1) at 1 by lia.
  rewrite seqZ_app, !map_app by lia. f_equal.
  - rewrite Z2Nat.id by lia. rewrite map_map.
    apply Forall_fmap_ext, Forall_seqZ. intros k Hk.
    unfold clamp_pos. destruct (decide (0 + k * O + O > L)); [nia | lia].
  - rewrite seqZ_cons, seqZ_nil by lia. cbn [map]. f_equal.
    unfold clamp_pos. destruct (decide (0 + (0 + (m - 1)) * O + O > L)); [reflexivity | nia].
Qed.

End Loop.

Section Track.
Context {A : Type} `{Sample A} `{Librosa A}.

Lemma paste_widths (out : Z -> list (list A)) (O : Z) (c : nat) (starts : list Z) :
  Forall (fun s => Forall (fun r => length r = c) (out s)) starts ->
  forall rows, Forall (fun r => length r = c) rows ->
  Forall (fun r => length r = c) (paste_rows out O rows starts).
Proof.
  induction 1 as [|s starts Hs _ IH]; intros rows Hrows; [exact Hrows|].
  apply IH, write_rows_widths; assumption.
Qed.

Lemma ndim_adapt_channels (cfg : model_config) (mix_audio : ndarray A) :
  ndim mix_audio = 2%nat -> ndim (adapt_channels cfg mix_audio) = 2%nat.
Proof.
  intros Hn. unfold adapt_channels.
  destruct (mono_downmix cfg); [reflexivity|].
  destruct (decide (dim mix_audio 1 = 1%nat)); [reflexivity | exact Hn].
Qed.

Lemma prepare_mixture_dims (cfg : model_config) (mix_audio : ndarray A) (mix_sr : Z) :
  resampler_ok -> ndim mix_audio = 2%nat ->
  ndim (prepare_mixture cfg mix_audio mix_sr) = 2%nat
  /\ dim (prepare_mixture cfg mix_audio mix_sr) 1 = dim (adapt_channels cfg mix_audio) 1.
Proof.
  intros Hres Hn. unfold prepare_mixture.
  pose proof (ndim_adapt_channels cfg _ Hn) as Ha.
  assert (Ht : ndim (transpose (adapt_channels cfg mix_audio)) = 2%nat)
    by (rewrite ndim_transpose; exact Ha).
  destruct (Hres _ mix_sr (expected_sr cfg) "kaiser_fast"%string Ht) as [Hr2 Hr0].
  split.
  - rewrite ndim_transpose. exact Hr2.
  - destruct (dims_transpose _ Hr2) as [_ ->]. rewrite Hr0.
    destruct (dims_transpose _ Ha) as [-> _]. reflexivity.
Qed.

Lemma py_range_up (stop step : Z) :
  0 < step ->
  py_range 0 stop step
  = Ok (map (fun k => 0 + k * step) (seqZ 0 ((stop - 0 + step - 1) / step))).
Proof.
  intros Hs. unfold py_range.
  destruct (decide (step = 0)); [lia|].
  destruct (decide (0 < step)); [reflexivity | lia].
Qed.

Lemma window_starts_tiling (L O : Z) :
  0 < O -> O <= L ->
  window_starts L O
  = Ok (map (fun k => k * O) (seqZ 0 ((L + O - 1) / O - 1)) ++ [L - O]).
Proof.
  intros HO HOL. unfold window_starts. rewrite py_range_up by exact HO. simpl bind.
  rewrite clamped_positions by assumption.
  destruct (window_count_bounds L O HO HOL) as (Hm & _).
  rewrite Z2Nat.id by lia. rewrite Z.sub_0_r. reflexivity.
Qed.

Lemma predict_track_tiled (cfg : model_config) (sess : inference)
    (mix_audio : ndarray A) (mix_sr : Z) (b_in I c_in b_out O c_out : Z) :
  let mix := prepare_mixture cfg mix_audio mix_sr in
  let L := Z.of_nat (dim mix 0) in
  let c := dim mix 1 in
  ndim mix_audio = 2%nat ->
  resampler_ok ->
  session_ok sess (num_sources cfg) (Z.to_nat I) (Z.to_nat O) c ->
  0 < O -> O <= L -> O <= I -> (I - O) mod 2 = 0 ->
  predict_track cfg sess mix_audio mix_sr (b_in, I, c_in) (b_out, O, c_out)
  = Ok (map (fun i =>
               of_rows c
                 (tiled_rows sess (padded_mixture cfg mix_audio mix_sr I O) I O i
                    (replicate (dim mix 0) (replicate c zero))
                    (map (fun k => k * O) (seqZ 0 ((L + O - 1) / O - 1)) ++ [L - O])))
          (seq 0 (num_sources cfg)))
  /\ Forall (fun s => 0 <= s /\ s + O <= L
                      /\ shape (mix_part_at (padded_mixture cfg mix_audio mix_sr I O) s I)
                         = [1%nat; Z.to_nat I; c])
       (map (fun k => k * O) (seqZ 0 ((L + O - 1) / O - 1)) ++ [L - O]).
Proof.
  intros mix L c Hn Hres Hsess HO HOL HOI Heven.
  destruct (prepare_mixture_dims cfg mix_audio mix_sr Hres Hn) as [Hmn _].
  fold mix in Hmn.
  destruct (window_count_bounds L O HO HOL) as (Hm & Hlo & Hhi).
  rewrite Z.sub_0_r in Hm, Hlo, Hhi.
  assert (Hpad : 2 * ((I - O) / 2) = I - O).
  { pose proof (Z.div_mod (I - O) 2). lia. }
  assert (Hpad0 : 0 <= (I - O) / 2) by (apply Z.div_pos; lia).
  assert (Hstarts :
    Forall (fun s => 0 <= s /\ s + O <= L
                     /\ shape (mix_part_at (padded_mixture cfg mix_audio mix_sr I O) s I)
                        = [1%nat; Z.to_nat I; c])
      (map (fun k => k * O) (seqZ 0 ((L + O - 1) / O - 1)) ++ [L - O])).
  { assert (Hone : forall s, 0 <= s -> s + O <= L ->
      0 <= s /\ s + O <= L
      /\ shape (mix_part_at (padded_mixture cfg mix_audio mix_sr I O) s I)
         = [1%nat; Z.to_nat I; c]).
    { intros s Hs0 Hs1. split; [exact Hs0|]. split; [exact Hs1|].
      unfold padded_mixture. fold mix. fold c.
      apply mix_part_shape; [lia | lia |].
      rewrite !length_app, !length_replicate, rows2_length. fold L. lia. }
    apply Forall_app_2.
    - apply Forall_map, Forall_seqZ. intros k Hk. apply Hone; nia.
    - constructor; [|constructor]. apply Hone; lia. }
  split; [|exact Hstarts].
  unfold predict_track. rewrite bool_decide_eq_true_2 by exact Hn.
  cbn [py_assert bind fst snd]. fold mix. fold L.
  unfold np_pad_rows. destruct (decide ((I - O) / 2 < 0)) as [Hneg|_]; [lia|].
  cbn [bind]. rewrite py_range_up by exact HO. cbn [bind].
  rewrite (shape_2d mix Hmn), np_zeros_rows. fold c.
  change (of_rows c (replicate (Z.to_nat ((I - O) / 2)) (replicate c zero)
                     ++ rows2 mix ++
                     replicate (Z.to_nat ((I - O) / 2)) (replicate c zero)))
    with (padded_mixture cfg mix_audio mix_sr I O).
  rewrite (replicate_as_map (num_sources cfg)).
  rewrite (tiling_loop cfg sess (padded_mixture cfg mix_audio mix_sr I O)
             (dim mix 0) c I O).
  - fold L. rewrite clamped_positions by assumption.
    rewrite Z.sub_0_r, Z2Nat.id by lia. reflexivity.
  - exact Hsess.
  - lia.
  - fold L. rewrite clamped_positions by assumption.
    rewrite Z.sub_0_r, Z2Nat.id by lia. exact Hstarts.
  - intros i _. split; [apply length_replicate|].
    apply Forall_replicate, length_replicate.
Qed.

End Track.

(** ** Tiling *)

Section WindowStarts.

Lemma window_starts_cover (L O : Z) :
  0 < O -> O <= L ->
  let starts := map (fun k => k * O) (seqZ 0 ((L + O - 1) / O - 1)) ++ [L - O] in
  (forall s, s ∈ starts -> 0 <= s /\ s + O <= L)
  /\ (forall p, 0 <= p < L -> owner L O p ∈ starts)
  /\ length starts = Z.to_nat ((L + O - 1) / O)
  /\ (forall (a : nat) (s : Z),
        starts !! a = Some s ->
        (S a < length starts)%nat -> s = Z.of_nat a * O)
  /\ (forall (a : nat) (s : Z),
        starts !! a = Some s -> S a = length starts -> s = L - O).
Proof.
  intros HO HOL starts.
  destruct (window_count_bounds L O HO HOL) as (Hm & Hlo & Hhi).
  rewrite Z.sub_0_r in Hm, Hlo, Hhi.
  set (m := (L + O - 1) / O) in *.
  assert (Hlen : length starts = Z.to_nat m).
  { unfold starts. rewrite length_app, length_map, length_seqZ. simpl. lia. }
  assert (Hgridlen : length (map (fun k => k * O) (seqZ 0 (m - 1))) = Z.to_nat (m - 1)).
  { rewrite length_map, length_seqZ. reflexivity. }
  split; [|split; [|split; [exact Hlen|split]]].
  - intros s Hs. unfold starts in Hs. apply elem_of_app in Hs as [Hs|Hs].
    + apply list_elem_of_fmap in Hs as (k & -> & Hk). apply elem_of_seqZ in Hk. nia.
    + apply list_elem_of_singleton in Hs. subst. lia.
  - intros p Hp. unfold starts, owner. apply elem_of_app.
    destruct (decide (L - O <= p)); [right; apply list_elem_of_singleton; reflexivity|].
    left. apply list_elem_of_fmap. exists (p / O). split; [lia|].
    apply elem_of_seqZ.
    pose proof (Z.mul_div_le p O HO). pose proof (Z.mul_succ_div_gt p O HO).
    assert (0 <= p / O) by (apply Z.div_pos; lia). nia.
  - intros a s Ha Hlt. unfold starts in Ha.
    rewrite lookup_app_l in Ha by lia.
    rewrite list_lookup_fmap in Ha.
    destruct (seqZ 0 (m - 1) !! a) as [k|] eqn:Hk; [|discriminate].
    apply lookup_seqZ in Hk as [-> _]. simpl in Ha. injection Ha as <-. lia.
  - intros a s Ha Hlast. unfold starts in Ha.
    rewrite lookup_app_r in Ha by lia.
    rewrite Hgridlen in Ha.
    replace (a - Z.to_nat (m - 1))%nat with 0%nat in Ha by lia.
    simpl in Ha. congruence.
Qed.

End WindowStarts.

Section TilingResult.
Context {A : Type} `{Sample A} `{Librosa A}.

Lemma predict_track_result (cfg : model_config) (sess : inference)
    (mix_audio : ndarray A) (mix_sr : Z) (b_in I c_in b_out O c_out : Z) :
  let mix := prepare_mixture cfg mix_audio mix_sr in
  let L := Z.of_nat (dim mix 0) in
  ndim mix_audio = 2%nat ->
  resampler_ok ->
  session_ok sess (num_sources cfg) (Z.to_nat I) (Z.to_nat O) (dim mix 1) ->
  0 < O -> O <= L -> O <= I -> (I - O) mod 2 = 0 ->
  exists source_preds : list (ndarray A),
    predict_track cfg sess mix_audio mix_sr (b_in, I, c_in) (b_out, O, c_out)
    = Ok source_preds
    /\ tiled_result cfg sess mix_audio mix_sr I O source_preds.
Proof.
  intros mix L Hn Hres Hsess HO HOL HOI Heven.
  destruct (predict_track_tiled cfg sess mix_audio mix_sr b_in I c_in b_out O c_out
              Hn Hres Hsess HO HOL HOI Heven) as [Hrun Hstarts].
  fold mix in Hrun, Hstarts. fold L in Hrun, Hstarts.
  eexists. split; [exact Hrun|].
  unfold tiled_result. fold mix. fold L. cbv zeta.
  split; [now rewrite length_map, length_seq|].
  intros i pred Hpred.
  rewrite list_lookup_fmap in Hpred.
  destruct (seq 0 (num_sources cfg) !! i) as [i'|] eqn:Hi; [|discriminate].
  apply lookup_seq in Hi as [-> Hi]. simpl in Hi, Hpred. injection Hpred as <-.
  set (padded := padded_mixture cfg mix_audio mix_sr I O) in *.
  set (out := window_output sess padded I i).
  destruct (window_count_bounds L O HO HOL) as (Hm & Hlo & Hhi).
  rewrite Z.sub_0_r in Hm, Hlo, Hhi.
  rewrite Forall_app in Hstarts. destruct Hstarts as [Hgrid Hlast].
  rewrite Forall_map, Forall_seqZ in Hgrid.
  inversion Hlast as [|? ? (_ & _ & Hwl) _]; subst.
  assert (Houtk : forall k, 0 <= k < (L + O - 1) / O - 1 ->
            length (out (k * O)) = Z.to_nat O
            /\ Forall (fun r => length r = dim mix 1) (out (k * O))).
  { intros k Hk. destruct (Hgrid k) as (_ & _ & Hw); [lia|].
    exact (window_output_shaped sess padded I _ i _ _ (k * O) Hsess Hw Hi). }
  assert (Houtl : length (out (L - O)) = Z.to_nat O
            /\ Forall (fun r => length r = dim mix 1) (out (L - O))).
  { exact (window_output_shaped sess padded I _ i _ _ (L - O) Hsess Hwl Hi). }
  destruct (paste_tiling out L O HO
              (replicate (dim mix 0) (replicate (dim mix 1) zero))
              (Z.to_nat ((L + O - 1) / O - 1))) as [Hlen Hrows].
  { rewrite length_replicate. reflexivity. }
  { exact HOL. }
  { rewrite Z2Nat.id by lia. lia. }
  { rewrite Z2Nat.id by lia. lia. }
  { intros k Hk. apply Houtk. lia. }
  { apply Houtl. }
  rewrite Z2Nat.id in Hlen, Hrows by lia.
  unfold tiled_rows. fold out.
  assert (Hw : Forall (fun r => length r = dim mix 1)
                 (paste_rows out O (replicate (dim mix 0) (replicate (dim mix 1) zero))
                    (map (fun k => k * O) (seqZ 0 ((L + O - 1) / O - 1)) ++ [L - O]))).
  { apply paste_widths.
    - apply Forall_app_2.
      + apply Forall_map, Forall_seqZ. intros k Hk. apply Houtk. lia.
      + constructor; [apply Houtl | constructor].
    - apply Forall_replicate, length_replicate. }
  split.
  - unfold of_rows. simpl. rewrite Hlen, length_replicate. reflexivity.
  - intros p Hp. rewrite rows2_of_rows by exact Hw. rewrite Hrows by exact Hp.
    destruct (owner_offset L O HO p Hp HOL) as (Hoff & Hown0 & Hown1).
    assert (Hol : length (out (owner L O p)) = Z.to_nat O).
    { unfold owner. destruct (decide (L - O <= p)); [apply Houtl|].
      rewrite Z.mul_comm. apply Houtk.
      pose proof (Z.mul_div_le p O HO).
      assert (0 <= p / O) by (apply Z.div_pos; lia). nia. }
    destruct (lookup_lt_is_Some_2 (out (owner L O p)) (Z.to_nat (p - owner L O p)))
      as [row Hrow]; [lia|].
    exists row. split; exact Hrow.
Qed.

End TilingResult.

Section Concrete.

Lemma length_ramp (c : nat) (f : nat -> Z) (l : list nat) :
  length (flat_map (fun j => replicate c (f j)) l) = (length l * c)%nat.
Proof.
  induction l as [|j l IH]; [reflexivity|].
  simpl. rewrite length_app, length_replicate, IH. reflexivity.
Qed.

Lemma ramp_session_ok (n i o c : nat) : session_ok (ramp_session n o c) n i o c.
Proof.
  intros w _. eexists. split; [reflexivity|]. split.
  - now rewrite length_map, length_seq.
  - apply Forall_map, Forall_forall. intros k _. split; [reflexivity|].
    unfold well_formed. simpl. rewrite length_ramp, length_seq. lia.
Qed.

Lemma librosa_id_ok : resampler_ok (A := Z).
Proof. intros y a b r Hy. split; [exact Hy | reflexivity]. Qed.

End Concrete.

Section TilingClaims.

(** Claim C1.
    For a resampled mixture of [L] frames and an output window of [O]
    frames with [0 < O <= L]: the loop of [predict_track] visits the
    starts 0, O, 2*O, ... and a last start [L - O], so the last output
    segment ends exactly at [L]; the output segments cover exactly
    [0, L); two different windows overlap only if they are the last two.
    With a session that answers full input windows ([O <= I], [I - O]
    even) [predict_track] returns buffers whose every frame was written:
    frame [p] holds the output of the window [owner p], the last window
    for [p >= L - O].  For L = 1000 and O = 400 the starts are
    [0, 400, 600] and the frames of [600, 1000) come from the window that
    starts at 600. *)
Theorem tiling_covers :
  (forall L O : Z,
     0 < O -> O <= L ->
     exists starts : list Z,
       window_starts L O = Ok starts
       /\ starts = map (fun k => k * O) (seqZ 0 ((L + O - 1) / O - 1)) ++ [L - O]
       /\ (forall (a : nat) (s : Z),
             starts !! a = Some s ->
             if decide (S a = length starts) then s = L - O else s = Z.of_nat a * O)
       /\ (forall p : Z, 0 <= p < L <-> exists s, s ∈ starts /\ s <= p < s + O)
       /\ (forall (a b : nat) (s t p : Z),
             (a < b)%nat ->
             starts !! a = Some s -> starts !! b = Some t ->
             s <= p < s + O -> t <= p < t + O ->
             S b = length starts /\ S a = b))
  /\ (forall (A : Type) (HS : Sample A) (HL : Librosa A)
        (cfg : model_config) (sess : inference)
        (mix_audio : ndarray A) (mix_sr : Z) (b_in I c_in b_out O c_out : Z),
        let mix := prepare_mixture cfg mix_audio mix_sr in
        ndim mix_audio = 2%nat ->
        resampler_ok ->
        session_ok sess (num_sources cfg) (Z.to_nat I) (Z.to_nat O) (dim mix 1) ->
        0 < O -> O <= Z.of_nat (dim mix 0) -> O <= I -> (I - O) mod 2 = 0 ->
        exists source_preds : list (ndarray A),
          predict_track cfg sess mix_audio mix_sr (b_in, I, c_in) (b_out, O, c_out)
          = Ok source_preds
          /\ tiled_result cfg sess mix_audio mix_sr I O source_preds)
  /\ window_starts 1000 400 = Ok [0; 400; 600]
  /\ (forall p : Z,
        0 <= p < 1000 ->
        owner 1000 400 p
        = if decide (600 <= p) then 600 else if decide (400 <= p) then 400 else 0).
Proof.
  split; [|split; [|split]].
  - intros L O HO HOL.
    destruct (window_starts_cover L O HO HOL) as (Hin & Hown & Hlen & Hgrid & Hlast).
    destruct (window_count_bounds L O HO HOL) as (Hm & Hlo & Hhi).
    rewrite Z.sub_0_r in Hm, Hlo, Hhi.
    eexists. split; [apply window_starts_tiling; assumption|].
    split; [reflexivity|]. split; [|split].
    + intros a s Ha. destruct (decide (S a = _)) as [Heq|Hne].
      * exact (Hlast a s Ha Heq).
      * apply (Hgrid a s Ha). apply lookup_lt_Some in Ha. lia.
    + intros p. split.
      * intros Hp. exists (owner L O p). split; [apply Hown, Hp|].
        destruct (owner_offset L O HO p Hp HOL). lia.
      * intros (s & Hs & Hp). destruct (Hin s Hs). lia.
    + intros a b s t p Hab Ha Hb Hps Hpt.
      pose proof (lookup_lt_Some _ _ _ Ha) as Hla.
      pose proof (lookup_lt_Some _ _ _ Hb) as Hlb.
      pose proof (Hgrid a s Ha ltac:(lia)) as Hs.
      destruct (decide (S b = length
                  (map (fun k => k * O) (seqZ 0 ((L + O - 1) / O - 1)) ++ [L - O])))
        as [Hbl|Hbl].
      * split; [exact Hbl|].
        pose proof (Hlast b t Hb Hbl) as Ht. rewrite Hlen in *. nia.
      * pose proof (Hgrid b t Hb ltac:(lia)) as Ht. nia.
  - intros A HS HL cfg sess mix_audio mix_sr b_in I c_in b_out O c_out mix.
    apply predict_track_result.
  - reflexivity.
  - intros p Hp. unfold owner.
    destruct (decide (1000 - 400 <= p)), (decide (600 <= p)); try lia.
    destruct (decide (400 <= p)).
    + replace (p / 400) with 1; [reflexivity|].
      apply (Z.div_unique p 400 1 (p - 400)); lia.
    + replace (p / 400) with 0; [reflexivity|].
      symmetry. apply Z.div_small. lia.
Qed.

End TilingClaims.

Lemma tiling_covers_witness :
  window_starts 10 4 = Ok (map (fun k => k * 4) (seqZ 0 ((10 + 4 - 1) / 4 - 1)) ++ [10 - 4])
  /\ exists source_preds : list (ndarray Z),
       predict_track (ModelConfig false 22050 2 "voice") (ramp_session 2 4 2)
         (ramp_mixture 10 2) 22050 (1, 6, 2) (1, 4, 2) = Ok source_preds
       /\ tiled_result (ModelConfig false 22050 2 "voice") (ramp_session 2 4 2)
            (ramp_mixture 10 2) 22050 6 4 source_preds.
Proof.
  split.
  - destruct (proj1 tiling_covers 10 4) as (starts & Hrun & Heq & _); [lia | lia |].
    rewrite Hrun, Heq. reflexivity.
  - apply (proj1 (proj2 tiling_covers) Z sample_Z librosa_id
             (ModelConfig false 22050 2 "voice") (ramp_session 2 4 2)
             (ramp_mixture 10 2) 22050 1 6 2 1 4 2).
    + reflexivity.
    + exact librosa_id_ok.
    + exact (ramp_session_ok 2 6 4 2).
    + lia.
    + vm_compute. discriminate.
    + lia.
    + reflexivity.
Defined.

(** A track shorter than one output window gets a single window, and
    its output start is negative. *)
Lemma window_starts_short (L O : Z) :
  0 < L -> L < O -> window_starts L O = Ok [L - O] /\ L - O < 0.
Proof.
  intros HL HLO. split; [|lia]. unfold window_starts.
  rewrite py_range_up by lia. cbn [bind].
  replace ((L - 0 + O - 1) / O) with 1.
  - rewrite seqZ_cons, seqZ_nil by lia. cbn [map]. unfold clamp_pos.
    destruct (decide (0 + 0 * O + O > L)); [reflexivity | lia].
  - apply (Z.div_unique (L - 0 + O - 1) O 1 (L - 1)); lia.
Qed.

(** Claim C5 fails on the code.
    For a mixture of 100 frames and windows of 400 output frames (600
    input frames) the only window of the loop has the output start
    100 - 400 = -300, not 0.  The slice of the padded mixture taken from
    that start has 300 frames instead of 600, and even with a session
    that answers whatever its input, the run ends in an exception when
    the 400 output frames are assigned to the slice [-300:100] of the
    100-frame buffer. *)
Theorem short_track_negative_start :
  window_starts 100 400 = Ok [-300]
  /\ shape (mix_part_at
              (padded_mixture (ModelConfig false 22050 2 "voice") (ramp_mixture 100 2)
                 22050 600 400) (-300) 600)
     = [1%nat; 300%nat; 2%nat]
  /\ predict_track (ModelConfig false 22050 2 "voice") (ramp_session 2 400 2)
       (ramp_mixture 100 2) 22050 (1, 600, 2) (1, 400, 2) = Raise ValueError.
Proof. repeat split; vm_compute; reflexivity. Qed.


(** ** Channels *)

Section Channels.
Context {A : Type} `{Sample A} `{Librosa A}.






Lemma py_index_ok {T : Type} (l : list T) (i : nat) :
  (i < length l)%nat -> exists x, py_index l i = Ok x /\ x ∈ l.
Proof.
  intros Hi. destruct (lookup_lt_is_Some_2 l i Hi) as [x Hx].
  exists x. unfold py_index. rewrite Hx. split; [reflexivity|].
  eapply list_elem_of_lookup_2, Hx.
Qed.


End Channels.



(** ** More on [alpha_snr] *)

Section AlphaSnrMore.
Open Scope R_scope.
Import SnrSpec.















End AlphaSnrMore.





(** ** Edge cases of [predict] and [predict_track] *)

Section PredictEdges.
Context {A : Type} `{Sample A} `{Librosa A}.

(** Property X5.
    [predict] reads [track.audio.shape[1]] before [predict_track] checks
    the rank: a track with fewer than two axes fails with IndexError, one
    with more than two with the assertion. *)
Theorem predict_wrong_rank (cfg : model_config) (sess : inference)
    (track_audio : ndarray A) (track_rate : Z) (sep_input_shape sep_output_shape : Z * Z * Z) :
  ((ndim track_audio < 2)%nat ->
   predict cfg sess track_audio track_rate sep_input_shape sep_output_shape
   = Raise IndexError)
  /\ ((2 < ndim track_audio)%nat ->
      predict cfg sess track_audio track_rate sep_input_shape sep_output_shape
      = Raise AssertionError).
Proof.
  unfold predict, py_index, ndim. split; intros Hn.
  - rewrite lookup_ge_None_2 by lia. reflexivity.
  - destruct (lookup_lt_is_Some_2 (shape track_audio) 1) as [ch Hch]; [lia|].
    rewrite Hch. cbn [bind]. unfold predict_track, ndim.
    rewrite bool_decide_eq_false_2 by lia. reflexivity.
Qed.

(** Property X6.
    Window sizes the loop cannot use: an input window shorter than the
    output window makes the pad width negative, an output window of zero
    frames makes the step of [range] zero; both end in ValueError before
    any inference. *)
Theorem predict_track_bad_window_sizes (cfg : model_config) (sess : inference)
    (mix_audio : ndarray A) (mix_sr : Z) (b_in I c_in b_out O c_out : Z) :
  ndim mix_audio = 2%nat ->
  I < O \/ (O = 0 /\ 0 <= I) ->
  predict_track cfg sess mix_audio mix_sr (b_in, I, c_in) (b_out, O, c_out)
  = Raise ValueError.
Proof.
  intros Hn Hbad. unfold predict_track. rewrite bool_decide_eq_true_2 by exact Hn.
  cbn [py_assert bind fst snd]. unfold np_pad_rows.
  destruct Hbad as [Hlt|[-> HI]].
  - destruct (decide ((I - O) / 2 < 0)) as [_|Hge]; [reflexivity|].
    exfalso. apply Hge. apply Z.div_lt_upper_bound; lia.
  - destruct (decide ((I - 0) / 2 < 0)) as [Hneg|_].
    + exfalso. assert (0 <= (I - 0) / 2) by (apply Z.div_pos; lia). lia.
    + cbn [bind]. unfold py_range. destruct (decide (0 = 0)); [reflexivity | lia].
Qed.

(** Property X7.
    No window at all: for an empty mixture, or a negative output window,
    the loop body never runs and the zero buffers are returned as they
    were allocated, whatever the session. *)
Theorem predict_track_no_window (cfg : model_config) (sess : inference)
    (mix_audio : ndarray A) (mix_sr : Z) (b_in I c_in b_out O c_out : Z) :
  let mix := prepare_mixture cfg mix_audio mix_sr in
  ndim mix_audio = 2%nat ->
  O <= I ->
  (dim mix 0 = 0%nat /\ 0 < O) \/ O < 0 ->
  predict_track cfg sess mix_audio mix_sr (b_in, I, c_in) (b_out, O, c_out)
  = Ok (replicate (num_sources cfg) (np_zeros (shape mix))).
Proof.
  intros mix Hn HOI Hcase. unfold predict_track. rewrite bool_decide_eq_true_2 by exact Hn.
  cbn [py_assert bind fst snd]. fold mix. unfold np_pad_rows.
  destruct (decide ((I - O) / 2 < 0)) as [Hneg|_].
  { exfalso. assert (0 <= (I - O) / 2) by (apply Z.div_pos; lia). lia. }
  cbn [bind]. unfold py_range.
  destruct (decide (O = 0)) as [->|HO0]; [lia|].
  destruct (decide (0 < O)) as [HO|HO].
  - destruct Hcase as [[HL _]|Hc]; [|lia]. rewrite HL.
    replace ((Z.of_nat 0 - 0 + O - 1) / O) with 0.
    + reflexivity.
    + symmetry. apply Z.div_small. lia.
  - rewrite seqZ_nil; [reflexivity|].
    assert (Hq : (0 - Z.of_nat (dim mix 0) - O - 1) / - O < 1).
    { apply Z.div_lt_upper_bound; lia. }
    lia.
Qed.

End PredictEdges.

Lemma predict_wrong_rank_witness :
  predict (ModelConfig false 22050 2 "voice") (ramp_session 2 4 2)
    DatasetExamples.flat_audio 22050 (1, 6, 2) (1, 4, 2)
  = Raise IndexError.
Proof.
  apply (proj1 (predict_wrong_rank (ModelConfig false 22050 2 "voice") (ramp_session 2 4 2)
                  DatasetExamples.flat_audio 22050 (1, 6, 2) (1, 4, 2))).
  unfold DatasetExamples.flat_audio, ndim. simpl. lia.
Defined.

Lemma predict_track_bad_window_sizes_witness :
  predict_track (ModelConfig false 22050 2 "voice") (ramp_session 2 4 2)
    (ramp_mixture 10 2) 22050 (1, 2, 2) (1, 4, 2)
  = Raise ValueError.
Proof.
  apply (predict_track_bad_window_sizes (ModelConfig false 22050 2 "voice")
           (ramp_session 2 4 2) (ramp_mixture 10 2) 22050 1 2 2 1 4 2).
  - reflexivity.
  - left. lia.
Defined.

Lemma predict_track_no_window_witness :
  predict_track (ModelConfig false 22050 2 "voice") (ramp_session 2 4 2)
    (ramp_mixture 10 2) 22050 (1, 6, 2) (1, -4, 2)
  = Ok (replicate 2 (np_zeros [10%nat; 2%nat])).
Proof.
  exact (predict_track_no_window (ModelConfig false 22050 2 "voice")
           (ramp_session 2 4 2) (ramp_mixture 10 2) 22050 1 6 2 1 (-4) 2
           eq_refl ltac:(lia) ltac:(right; lia)).
Defined.

(** ** The excerpts handed to the network *)

Section Windows.
Context {A : Type} `{Sample A} `{Librosa A}.

Lemma slice_bound_above (n : nat) (i : Z) :
  Z.of_nat n <= i -> slice_bound n i = n.
Proof.
  intros Hi. unfold slice_bound. destruct (decide (i < 0)); [lia|].
  rewrite Z.min_r by lia. apply Nat2Z.id.
Qed.

Lemma padded_rows_length (cfg : model_config) (mix_audio : ndarray A) (mix_sr I O : Z) :
  dim (padded_mixture cfg mix_audio mix_sr I O) 0
  = (Z.to_nat ((I - O) / 2) + dim (prepare_mixture cfg mix_audio mix_sr) 0
     + Z.to_nat ((I - O) / 2))%nat.
Proof.
  unfold padded_mixture, of_rows, dim at 1. simpl.
  rewrite !length_app, !length_replicate, rows2_length. lia.
Qed.

(** Property X8.
    With an odd difference between the input and the output window the
    padding is one frame short: the excerpt of the last window has
    [I - 1] frames, and a session that refuses such an input makes the
    whole run fail. *)
Theorem odd_context_truncates_last_window (cfg : model_config)
    (mix_audio : ndarray A) (mix_sr : Z) (b_in I c_in b_out O c_out : Z) :
  let mix := prepare_mixture cfg mix_audio mix_sr in
  let L := Z.of_nat (dim mix 0) in
  let padded := padded_mixture cfg mix_audio mix_sr I O in
  ndim mix_audio = 2%nat ->
  0 < O -> O <= L -> O <= I -> (I - O) mod 2 = 1 ->
  shape (mix_part_at padded (L - O) I) = [1%nat; Z.to_nat (I - 1); dim mix 1]
  /\ forall sess : inference,
       (forall w, shape w <> [1%nat; Z.to_nat I; dim mix 1] -> is_ok (sess w) = false) ->
       is_ok (predict_track cfg sess mix_audio mix_sr (b_in, I, c_in) (b_out, O, c_out))
       = false.
Proof.
  intros mix L padded Hn HO HOL HOI Hodd.
  assert (Hpad : 2 * ((I - O) / 2) = I - O - 1).
  { pose proof (Z.div_mod (I - O) 2). lia. }
  assert (Hpad0 : 0 <= (I - O) / 2) by (apply Z.div_pos; lia).
  assert (Hshape : shape (mix_part_at padded (L - O) I)
                   = [1%nat; Z.to_nat (I - 1); dim mix 1]).
  { unfold mix_part_at, np_expand_dims0, slice_rows. simpl shape.
    unfold padded at 1 2. rewrite padded_rows_length. fold mix.
    rewrite (slice_bound_inside _ (L - O)) by (subst L; lia).
    rewrite (slice_bound_above _ (L - O + I)) by (subst L; lia).
    unfold of_rows. simpl. do 2 f_equal.
    rewrite length_take, length_drop, rows2_length.
    unfold padded. rewrite padded_rows_length. fold mix.
    rewrite (slice_bound_inside _ (L - O)) by (subst L; lia). subst L. lia. }
  split; [exact Hshape|].
  intros sess Hsess. unfold predict_track.
  rewrite bool_decide_eq_true_2 by exact Hn.
  cbn [py_assert bind fst snd]. fold mix. unfold np_pad_rows.
  destruct (decide ((I - O) / 2 < 0)) as [Hneg|_]; [lia|].
  cbn [bind]. rewrite py_range_up by exact HO. cbn [bind]. fold L.
  destruct (window_count_bounds L O HO HOL) as (Hm & Hlo & Hhi).
  set (m := (L - 0 + O - 1) / O) in *.
  replace m with ((m - 1) + 1) by lia.
  rewrite seqZ_app, map_app, for_each_app by lia.
  destruct (for_each _ _ _) as [preds|e]; [|reflexivity].
  cbn [bind]. rewrite seqZ_cons, seqZ_nil by lia. cbn [map].
  rewrite for_each_cons. unfold predict_window at 1.
  assert (Hclamp : clamp_pos (0 + (0 + (m - 1)) * O) L O = L - O).
  { unfold clamp_pos. destruct (decide (0 + (0 + (m - 1)) * O + O > L)); [reflexivity | nia]. }
  rewrite Hclamp.
  change (of_rows (dim mix 1)
            (replicate (Z.to_nat ((I - O) / 2)) (replicate (dim mix 1) zero)
             ++ rows2 mix ++
             replicate (Z.to_nat ((I - O) / 2)) (replicate (dim mix 1) zero)))
    with padded.
  specialize (Hsess (mix_part_at padded (L - O) I)).
  destruct (sess (mix_part_at padded (L - O) I)) as [parts|e].
  - exfalso. assert (is_ok (Ok parts) = false); [|discriminate].
    apply Hsess. rewrite Hshape. intros Heq. injection Heq. lia.
  - reflexivity.
Qed.

(** Property X9.
    What the network sees: for a well-formed mixture the excerpt of a
    window that starts at [s] holds, at frame [j], the mixture's frame
    [s + j - pad], and silence where that frame lies before the start or
    after the end of the mixture. *)
Theorem window_excerpt_frames (cfg : model_config)
    (mix_audio : ndarray A) (mix_sr I O s j : Z) :
  let mix := prepare_mixture cfg mix_audio mix_sr in
  let L := Z.of_nat (dim mix 0) in
  let pad := (I - O) / 2 in
  let padded := padded_mixture cfg mix_audio mix_sr I O in
  well_formed mix -> ndim mix = 2%nat ->
  0 <= pad -> 0 <= s -> s + I <= L + 2 * pad -> 0 <= j < I ->
  rows2 (slice_rows padded s (s + I)) !! Z.to_nat j
  = if decide (pad <= s + j < pad + L)
    then rows2 mix !! Z.to_nat (s + j - pad)
    else Some (replicate (dim mix 1) zero).
Proof.
  intros mix L pad padded Hwf Hn Hpad Hs Hfit Hj.
  assert (Hmixw : Forall (fun r => length r = dim mix 1) (rows2 mix)).
  { apply rows2_widths. red in Hwf. rewrite (shape_2d mix Hn) in Hwf.
    simpl in Hwf. lia. }
  set (prows := replicate (Z.to_nat pad) (replicate (dim mix 1) zero)
                ++ rows2 mix ++
                replicate (Z.to_nat pad) (replicate (dim mix 1) zero)).
  assert (Hpw : Forall (fun r => length r = dim mix 1) prows).
  { unfold prows. repeat apply Forall_app_2; try exact Hmixw;
      apply Forall_replicate, length_replicate. }
  assert (Hplen : length prows = (Z.to_nat pad + dim mix 0 + Z.to_nat pad)%nat).
  { unfold prows. rewrite !length_app, !length_replicate, rows2_length. lia. }
  change padded with (of_rows (dim mix 1) prows).
  unfold slice_rows.
  change (dim (of_rows (dim mix 1) prows) 0) with (length prows).
  change (dim (of_rows (dim mix 1) prows) 1) with (dim mix 1).
  rewrite !slice_bound_inside by (subst L; lia).
  rewrite (rows2_of_rows _ prows Hpw).
  rewrite rows2_of_rows by (apply Forall_take, Forall_drop, Hpw).
  rewrite lookup_take_lt by lia. rewrite lookup_drop.
  replace (Z.to_nat s + Z.to_nat j)%nat with (Z.to_nat (s + j)) by lia.
  unfold prows.
  destruct (decide (pad <= s + j < pad + L)) as [Hin|Hout].
  - rewrite lookup_app_r by (rewrite length_replicate; lia).
    rewrite length_replicate.
    rewrite lookup_app_l by (rewrite rows2_length; subst L; lia).
    f_equal. lia.
  - destruct (decide (s + j < pad)) as [Hlow|Hhigh].
    + rewrite lookup_app_l by (rewrite length_replicate; lia).
      apply lookup_replicate_2. lia.
    + rewrite lookup_app_r by (rewrite length_replicate; lia).
      rewrite length_replicate.
      rewrite lookup_app_r by (rewrite rows2_length; subst L; lia).
      rewrite rows2_length. apply lookup_replicate_2. subst L. lia.
Qed.

End Windows.

(** Property X10.
    When the length is a multiple of the output window no window is
    moved back: the starts are the multiples of [O] below [L], so the
    output segments do not overlap. *)
Theorem window_starts_exact_multiple (L O : Z) :
  0 < O -> O <= L -> L mod O = 0 ->
  window_starts L O = Ok (map (fun k => k * O) (seqZ 0 (L / O))).
Proof.
  intros HO HOL Hmod. rewrite window_starts_tiling by assumption.
  assert (HL : L = O * (L / O)) by (pose proof (Z.div_mod L O); lia).
  assert (Hm : (L + O - 1) / O = L / O).
  { symmetry. apply (Z.div_unique (L + O - 1) O (L / O) (O - 1)); lia. }
  rewrite Hm. f_equal.
  assert (1 <= L / O) by nia.
  assert (Hsplit : seqZ 0 (L / O) = seqZ 0 (L / O - 1) ++ [L / O - 1]).
  { replace (L / O) with ((L / O - 1) + 1) at 1 by lia.
    rewrite seqZ_app by lia. f_equal. }
  rewrite Hsplit, map_app. f_equal. cbn [map]. f_equal. nia.
Qed.

Lemma odd_context_truncates_last_window_witness :
  shape (mix_part_at
           (padded_mixture (ModelConfig false 22050 2 "voice") (ramp_mixture 10 2) 22050 7 4)
           (10 - 4) 7)
  = [1%nat; 6%nat; 2%nat].
Proof.
  refine (proj1 (odd_context_truncates_last_window (ModelConfig false 22050 2 "voice")
                   (ramp_mixture 10 2) 22050 1 7 2 1 4 2 _ _ _ _ _)).
  - reflexivity.
  - lia.
  - change (4 <= 10). lia.
  - lia.
  - reflexivity.
Defined.

Lemma window_excerpt_frames_witness :
  rows2 (slice_rows
           (padded_mixture (ModelConfig false 22050 2 "voice") (ramp_mixture 10 2) 22050 6 4)
           0 (0 + 6)) !! Z.to_nat 0
  = Some (replicate 2 0).
Proof.
  assert (Hpad : 0 <= (6 - 4) / 2) by (apply Z.div_pos; lia).
  assert (Hfit : 0 + 6 <= 10 + 2 * ((6 - 4) / 2)).
  { change ((6 - 4) / 2) with 1. lia. }
  assert (Hwf : well_formed
                  (prepare_mixture (ModelConfig false 22050 2 "voice")
                     (ramp_mixture 10 2) 22050)) by reflexivity.
  rewrite (window_excerpt_frames (ModelConfig false 22050 2 "voice")
             (ramp_mixture 10 2) 22050 6 4 0 0 Hwf eq_refl Hpad ltac:(lia) Hfit
             ltac:(lia)).
  destruct (decide _) as [[Hin _]|_]; [|reflexivity].
  change ((6 - 4) / 2) with 1 in Hin. lia.
Defined.

Lemma window_starts_exact_multiple_witness :
  window_starts 12 4 = Ok (map (fun k => k * 4) (seqZ 0 (12 / 4))).
Proof. apply (window_starts_exact_multiple 12 4); [lia | lia | reflexivity]. Defined.

(** ** Files with different numbers of targets *)

Section AccumulateGeneral.
Import Metrics Violin.

Lemma extend_loop_within (ts pre_t post_t : list target)
    (pre lists post : list (list npfloat)) :
  length pre = length pre_t ->
  length lists = length ts ->
  for_each (seq (length pre) (length ts))
    (fun lists i =>
       t <- py_index (pre_t ++ ts ++ post_t) i ;; extend_at lists i (map SDR (frames t)))
    (pre ++ lists ++ post)
  = Ok (pre ++ zip_with app lists (map (fun t => map SDR (frames t)) ts) ++ post).
Proof.
  revert pre_t pre lists.
  induction ts as [|t ts IH]; intros pre_t pre lists Hpre Hlen.
  - destruct lists; [|discriminate]. reflexivity.
  - destruct lists as [|l lists]; [discriminate|]. simpl in Hlen.
    simpl length. simpl seq. rewrite for_each_cons.
    unfold py_index at 1. simpl app.
    rewrite list_lookup_middle by congruence. simpl bind.
    unfold extend_at at 1, py_index at 1.
    rewrite list_lookup_middle by reflexivity. simpl bind.
    rewrite insert_app_r_alt by lia. rewrite Nat.sub_diag. simpl insert.
    specialize (IH (pre_t ++ [t]) (pre ++ [l ++ map SDR (frames t)]) lists).
    rewrite !length_app, <- !app_assoc in IH. simpl in IH.
    rewrite !Nat.add_1_r in IH.
    rewrite IH by congruence. reflexivity.
Qed.

Lemma accumulate_fits (lists : list (list npfloat)) (js : score_file) :
  (length (targets js) <= length lists)%nat ->
  accumulate (Some lists) js = Ok (Some (merge_scores lists js)).
Proof.
  intros Hfit. unfold accumulate, merge_scores.
  pose proof (extend_loop_within (targets js) [] [] []
                (take (length (targets js)) lists) (drop (length (targets js)) lists)
                eq_refl) as Hloop.
  rewrite length_take, Nat.min_l in Hloop by lia. specialize (Hloop eq_refl).
  simpl in Hloop. rewrite app_nil_r, take_drop in Hloop.
  rewrite Hloop. reflexivity.
Qed.

Lemma accumulate_overflow (lists : list (list npfloat)) (js : score_file) :
  (length lists < length (targets js))%nat ->
  accumulate (Some lists) js = Raise IndexError.
Proof.
  intros Hover. unfold accumulate.
  replace (length (targets js))
    with (length lists + (length (targets js) - length lists))%nat at 1 by lia.
  rewrite seq_app, for_each_app.
  pose proof (extend_loop_within (take (length lists) (targets js)) []
                (drop (length lists) (targets js)) [] lists [] eq_refl) as Hloop.
  rewrite length_take, Nat.min_l in Hloop by lia. specialize (Hloop eq_refl).
  simpl in Hloop. rewrite take_drop, !app_nil_r in Hloop.
  rewrite Hloop. cbn [bind].
  destruct (length (targets js) - length lists)%nat as [|r] eqn:Hr; [lia|].
  simpl seq. rewrite for_each_cons.
  destruct (lookup_lt_is_Some_2 (targets js) (length lists)) as [t Ht]; [lia|].
  cbn [Nat.add]. unfold py_index at 1. rewrite Ht. cbn [bind].
  unfold extend_at, py_index.
  rewrite lookup_ge_None_2.
  - reflexivity.
  - rewrite length_zip_with, length_map, length_take. lia.
Qed.

Lemma merge_scores_length (lists : list (list npfloat)) (js : score_file) :
  (length (targets js) <= length lists)%nat ->
  length (merge_scores lists js) = length lists.
Proof.
  intros Hfit. unfold merge_scores, column.
  rewrite length_app, length_zip_with, length_take, length_map, length_drop. lia.
Qed.

Lemma merge_scores_lookup (lists : list (list npfloat)) (js : score_file) (i : nat) :
  (length (targets js) <= length lists)%nat ->
  merge_scores lists js !! i = (fun l => l ++ scores_of js i) <$> lists !! i.
Proof.
  intros Hfit. unfold merge_scores, scores_of, column.
  destruct (decide (i < length (targets js))%nat) as [Hi|Hi].
  - rewrite lookup_app_l
      by (rewrite length_zip_with, length_take, length_map; lia).
    rewrite lookup_zip_with, lookup_take_lt, list_lookup_fmap by lia.
    destruct (lists !! i) as [l|]; [|reflexivity].
    destruct (targets js !! i) as [t|] eqn:Ht; [reflexivity|].
    apply lookup_ge_None in Ht. lia.
  - rewrite lookup_app_r
      by (rewrite length_zip_with, length_take, length_map; lia).
    rewrite length_zip_with, length_take, length_map, lookup_drop.
    replace ((length (targets js) `min` length lists) `min` length (targets js))%nat
      with (length (targets js)) by lia.
    replace (length (targets js) + (i - length (targets js)))%nat with i by lia.
    rewrite (lookup_ge_None_2 (targets js)) by lia.
    destruct (lists !! i) as [l|]; simpl; [|reflexivity]. now rewrite app_nil_r.
Qed.

Lemma accumulate_rest (n : nat) (rest : list score_file) :
  forall lists : list (list npfloat),
  length lists = n ->
  (Forall (fun js => length (targets js) <= n)%nat rest ->
   for_each rest accumulate (Some lists) = Ok (Some (foldl merge_scores lists rest)))
  /\ (Exists (fun js => n < length (targets js))%nat rest ->
      for_each rest accumulate (Some lists) = Raise IndexError).
Proof.
  induction rest as [|js rest IH]; intros lists Hlen.
  - split; [reflexivity|]. intros Hex. inversion Hex.
  - rewrite for_each_cons.
    destruct (decide (length (targets js) <= n)%nat) as [Hfit|Hover].
    + rewrite accumulate_fits by lia. cbn [bind].
      destruct (IH (merge_scores lists js)) as [IHok IHbad];
        [rewrite merge_scores_length; lia|].
      split.
      * intros Hall. inversion Hall; subst. simpl foldl. apply IHok. assumption.
      * intros Hex. inversion Hex; subst; [lia|]. apply IHbad. assumption.
    + rewrite accumulate_overflow by lia. cbn [bind]. split.
      * intros Hall. inversion Hall; subst. lia.
      * reflexivity.
Qed.

Lemma foldl_merge_lookup (n : nat) (rest : list score_file) (i : nat) :
  forall lists : list (list npfloat),
  length lists = n ->
  Forall (fun js => length (targets js) <= n)%nat rest ->
  foldl merge_scores lists rest !! i
  = (fun l => l ++ concat (map (fun js => scores_of js i) rest)) <$> lists !! i.
Proof.
  induction rest as [|js rest IH]; intros lists Hlen Hall; simpl.
  - destruct (lists !! i); simpl; [|reflexivity]. now rewrite app_nil_r.
  - inversion Hall; subst.
    rewrite IH; [|rewrite merge_scores_length; lia | assumption].
    rewrite merge_scores_lookup by lia.
    destruct (lists !! i); simpl; [|reflexivity]. now rewrite app_assoc.
Qed.

Lemma foldl_merge_length (n : nat) (rest : list score_file) :
  forall lists : list (list npfloat),
  length lists = n ->
  Forall (fun js => length (targets js) <= n)%nat rest ->
  length (foldl merge_scores lists rest) = n.
Proof.
  induction rest as [|js rest IH]; intros lists Hlen Hall; simpl; [exact Hlen|].
  inversion Hall; subst. apply IH; [|assumption].
  rewrite merge_scores_length; lia.
Qed.

(** The accumulated lists of a run that reads [first] and then [rest]. *)
Lemma accumulate_files (first : score_file) (rest : list score_file) :
  let n := length (targets first) in
  (Forall (fun js => length (targets js) <= n)%nat rest ->
   exists lists : list (list npfloat),
     for_each (first :: rest) accumulate None = Ok (Some lists)
     /\ length lists = n
     /\ forall i, (i < n)%nat ->
          lists !! i = Some (concat (map (fun js => scores_of js i) (first :: rest))))
  /\ (Exists (fun js => n < length (targets js))%nat rest ->
      for_each (first :: rest) accumulate None = Raise IndexError).
Proof.
  intros n. rewrite for_each_cons.
  rewrite (accumulate_uniform None first (replicate n []))
    by (try reflexivity; apply length_replicate).
  cbn [bind].
  assert (Hlen0 : length (zip_with app (replicate n []) (column first)) = n).
  { rewrite length_zip_with, length_replicate. unfold column. rewrite length_map. lia. }
  destruct (accumulate_rest n rest _ Hlen0) as [Hok Hbad].
  split; [|exact Hbad].
  intros Hall. eexists. split; [apply Hok, Hall|]. split.
  - apply foldl_merge_length; assumption.
  - intros i Hi. rewrite (foldl_merge_lookup n) by assumption.
    rewrite lookup_zip_with, lookup_replicate_2 by lia. unfold column.
    rewrite list_lookup_fmap. simpl. unfold scores_of at 2.
    destruct (targets first !! i) as [t|] eqn:Ht; [reflexivity|].
    apply lookup_ge_None in Ht. lia.
Qed.

End AccumulateGeneral.

Section MetricsMore.
Import Metrics Violin.

(** Property X11.
    Which runs fail: the accumulator has as many lists as the first file
    read has targets, so a later file with more targets ends the run with
    IndexError, and without such a file the run returns one result per
    target of the first file. *)
Theorem compute_mean_metrics_index_error
    (first : score_file) (rest : list score_file) (compute_averages : bool) :
  (Exists (fun js => length (targets first) < length (targets js))%nat rest ->
   compute_mean_metrics (first :: rest) compute_averages = Raise IndexError)
  /\ (Forall (fun js => length (targets js) <= length (targets first))%nat rest ->
      exists m : metrics,
        compute_mean_metrics (first :: rest) compute_averages = Ok m
        /\ match m with
           | Averages stats => length stats = length (targets first)
           | Distributions lists => length lists = length (targets first)
           end).
Proof.
  destruct (accumulate_files first rest) as [Hok Hbad]. split.
  - intros Hex. unfold compute_mean_metrics. rewrite (Hbad Hex). reflexivity.
  - intros Hall. destruct (Hok Hall) as (lists & Hrun & Hlen & _).
    unfold compute_mean_metrics. rewrite Hrun. cbn [bind].
    destruct compute_averages; eexists; (split; [reflexivity|]); simpl.
    + rewrite length_map. exact Hlen.
    + exact Hlen.
Qed.

(** Property X12.
    The raw distributions: with [compute_averages=False] the array of
    target [i] is the concatenation, in the order the files are read, of
    the SDR values of target [i] of every file that has such a target,
    NaN values included. *)
Theorem compute_mean_metrics_distributions
    (first : score_file) (rest : list score_file) :
  Forall (fun js => length (targets js) <= length (targets first))%nat rest ->
  exists lists : list (list npfloat),
    compute_mean_metrics (first :: rest) false = Ok (Distributions lists)
    /\ length lists = length (targets first)
    /\ forall i, (i < length (targets first))%nat ->
         lists !! i = Some (concat (map (fun js => scores_of js i) (first :: rest))).
Proof.
  intros Hall. destruct (accumulate_files first rest) as [Hok _].
  destruct (Hok Hall) as (lists & Hrun & Hlen & Hlists).
  exists lists. unfold compute_mean_metrics. rewrite Hrun. auto.
Qed.




(** Property X14.
    [draw_violin_sdr] needs exactly two sources: with another number of
    targets in the first file the tuple assignment fails; with two, the
    data handed to the plot are the two raw distributions without their
    NaN entries. *)
Theorem violin_data_two_sources (first : score_file) (rest : list score_file) :
  Forall (fun js => length (targets js) <= length (targets first))%nat rest ->
  (length (targets first) <> 2%nat -> violin_data (first :: rest) = Raise ValueError)
  /\ (length (targets first) = 2%nat ->
      violin_data (first :: rest)
      = Ok [nan_filter (concat (map (fun js => scores_of js 0) (first :: rest)));
            nan_filter (concat (map (fun js => scores_of js 1) (first :: rest)))]).
Proof.
  intros Hall.
  destruct (proj1 (accumulate_files first rest) Hall) as (lists & Hrun & Hlen & Hlists).
  unfold violin_data, compute_mean_metrics. rewrite Hrun. cbn [bind]. split; intros Hn.
  - destruct lists as [|a [|b [|c lists]]]; simpl in Hlen; try reflexivity. lia.
  - rewrite Hn in *.
    destruct lists as [|a [|b [|c lists]]]; simpl in Hlen; try lia.
    pose proof (Hlists 0%nat ltac:(lia)) as H0.
    pose proof (Hlists 1%nat ltac:(lia)) as H1.
    simpl in H0, H1. injection H0 as ->. injection H1 as ->. reflexivity.
Qed.

End MetricsMore.

Lemma compute_mean_metrics_index_error_witness :
  Metrics.compute_mean_metrics [Metrics.one_target_file; Metrics.two_target_file] true
  = Raise IndexError.
Proof.
  apply (proj1 (compute_mean_metrics_index_error Metrics.one_target_file
                  [Metrics.two_target_file] true)).
  apply Exists_cons_hd. simpl. lia.
Defined.

Lemma compute_mean_metrics_distributions_witness :
  exists lists : list (list npfloat),
    Metrics.compute_mean_metrics [Metrics.two_target_file; Metrics.one_target_file] false
    = Ok (Metrics.Distributions lists)
    /\ length lists = 2%nat.
Proof.
  destruct (compute_mean_metrics_distributions Metrics.two_target_file
              [Metrics.one_target_file]) as (lists & Hrun & Hlen & _).
  - repeat constructor.
  - exists lists. split; [exact Hrun | exact Hlen].
Defined.


Lemma violin_data_two_sources_witness :
  Violin.violin_data [Metrics.two_target_file; Metrics.one_target_file]
  = Ok [Metrics.nan_filter
          (concat (map (fun js => Violin.scores_of js 0)
                     [Metrics.two_target_file; Metrics.one_target_file]));
        Metrics.nan_filter
          (concat (map (fun js => Violin.scores_of js 1)
                     [Metrics.two_target_file; Metrics.one_target_file]))].
Proof.
  apply (proj2 (violin_data_two_sources Metrics.two_target_file [Metrics.one_target_file]
                  ltac:(repeat constructor))).
  reflexivity.
Defined.

(** ** Writing the same file twice *)

Section FilesMore.
Import Files.
Context {A : Type}.

(** Property X15.
    The first writer wins: once [write_wav_skip_existing] has run for a
    path, running it again for that path, with any audio, leaves every
    file as it is. *)
Theorem write_wav_skip_existing_first_wins
    (path : string) (y1 y2 : ndarray A) (sr1 sr2 : Z) (norm1 norm2 : bool) (w : world A) :
  fs (write_wav_skip_existing path y2 sr2 norm2
        (write_wav_skip_existing path y1 sr1 norm1 w))
  = fs (write_wav_skip_existing path y1 sr1 norm1 w).
Proof.
  assert (Hex : forall w' : world A, path_exists w' path = true ->
            fs (write_wav_skip_existing path y2 sr2 norm2 w') = fs w').
  { intros w' He. unfold write_wav_skip_existing. rewrite He. reflexivity. }
  apply Hex. unfold write_wav_skip_existing.
  destruct (path_exists w path) eqn:He; simpl.
  - exact He.
  - unfold path_exists. simpl. apply bool_decide_eq_true.
    rewrite lookup_insert_eq. eauto.
Qed.

End FilesMore.

(** ** [subtract_audio] and the files on disk *)

Section SubtractFacts.
Import Datasets Subtract.
Context {Au : Type} `{AudioFiles Au}.

Lemma path_exists_spec (d : disk Au) (p : string) :
  path_exists d p = true <-> is_Some (files d !! p).
Proof. unfold path_exists. apply bool_decide_eq_true. Qed.

(** One pair: a file that exists stays as it is, after a successful
    step the new path exists, and nothing happens when it exists
    already. *)
Lemma subtract_one_effect (mix inst : string) (d : disk Au) :
  (forall p f,
     files d !! p = Some f -> files (subtract_one mix inst d).2 !! p = Some f)
  /\ (forall u,
        (subtract_one mix inst d).1 = Done u ->
        path_exists (subtract_one mix inst d).2 (new_audio_path mix) = true)
  /\ (path_exists d (new_audio_path mix) = true ->
      subtract_one mix inst d = (Done tt, d)).
Proof.
  unfold subtract_one.
  destruct (path_exists d (new_audio_path mix)) eqn:Hex.
  { repeat split; auto. }
  assert (Hnone : files d !! new_audio_path mix = None).
  { destruct (files d !! new_audio_path mix) eqn:Hl; [|reflexivity].
    assert (path_exists d (new_audio_path mix) = true)
      by (apply path_exists_spec; eauto).
    congruence. }
  split; [|split; [|discriminate]].
  - intros p f Hp.
    destruct (librosa_load d mix) as [[mix_audio mix_sr]|e]; [|exact Hp].
    destruct (librosa_load d inst) as [[inst_audio inst_sr]|e]; [|exact Hp].
    destruct (negb (mix_sr =? inst_sr)); [exact Hp|].
    destruct (audio_sub mix_audio inst_audio) as [new_audio|e]; [|exact Hp].
    destruct (in_range new_audio) as [ok|e]; [|exact Hp].
    simpl. rewrite lookup_insert_ne; [destruct ok; exact Hp|].
    intros Heq. rewrite Heq in Hnone. destruct ok; simpl in Hp; congruence.
  - intros u.
    destruct (librosa_load d mix) as [[mix_audio mix_sr]|e]; [|discriminate].
    destruct (librosa_load d inst) as [[inst_audio inst_sr]|e]; [|discriminate].
    destruct (negb (mix_sr =? inst_sr)); [discriminate|].
    destruct (audio_sub mix_audio inst_audio) as [new_audio|e]; [|discriminate].
    destruct (in_range new_audio) as [ok|e]; [|discriminate].
    intros _. apply path_exists_spec. simpl. rewrite lookup_insert_eq. eauto.
Qed.

Lemma subtract_loop_effect (pairs : list (string * string)) :
  forall (acc : list string) (d : disk Au),
  (forall p f,
     files d !! p = Some f -> files (subtract_loop pairs acc d).2 !! p = Some f)
  /\ (forall paths,
        (subtract_loop pairs acc d).1 = Done paths ->
        paths = acc ++ map new_audio_path pairs.*1
        /\ Forall (fun p => path_exists (subtract_loop pairs acc d).2 p = true)
             (map new_audio_path pairs.*1)).
Proof.
  induction pairs as [|[mix inst] rest IH]; intros acc d; simpl.
  - split; [auto|]. intros paths [= <-]. split; [now rewrite app_nil_r | constructor].
  - destruct (subtract_one_effect mix inst d) as (Hkeep & Hnew & _).
    destruct (subtract_one mix inst d) as [[u|e] d'] eqn:Hone; simpl in *.
    + destruct (IH (acc ++ [new_audio_path mix]) d') as [IHkeep IHdone]. split.
      * intros p f Hp. apply IHkeep, Hkeep, Hp.
      * intros paths Hpaths. destruct (IHdone paths Hpaths) as [-> Hall].
        split; [now rewrite <- app_assoc|].
        constructor; [|exact Hall].
        specialize (Hnew u eq_refl). apply path_exists_spec in Hnew as [f Hf].
        apply path_exists_spec. exists f. apply IHkeep, Hf.
    + split; [exact Hkeep | discriminate].
Qed.

(** Property X16.
    Whatever the outcome, [subtract_audio] changes no file that exists
    when it starts; lists of different lengths end in the assertion
    before any file is read or written. *)
Theorem subtract_audio_keeps_files (mix_list instrument_list : list string) (d : disk Au) :
  (forall p f,
     files d !! p = Some f ->
     files (subtract_audio mix_list instrument_list d).2 !! p = Some f)
  /\ (length mix_list <> length instrument_list ->
      subtract_audio mix_list instrument_list d = (Failed (Builtin AssertionError), d)).
Proof.
  unfold subtract_audio. split.
  - intros p f Hp. destruct (negb (length mix_list =? length instrument_list)%nat);
      [exact Hp|]. apply subtract_loop_effect, Hp.
  - intros Hne. apply Nat.eqb_neq in Hne. rewrite Hne. reflexivity.
Qed.

Lemma subtract_audio_done
    (mix_list instrument_list paths : list string) (d d' : disk Au) :
  subtract_audio mix_list instrument_list d = (Done paths, d') ->
  paths = map new_audio_path mix_list
  /\ Forall (fun p => path_exists d' p = true) paths.
Proof.
  unfold subtract_audio.
  destruct (length mix_list =? length instrument_list)%nat eqn:Hlen; simpl;
    [|discriminate].
  apply Nat.eqb_eq in Hlen. intros Hrun.
  destruct (subtract_loop_effect (zip mix_list instrument_list) [] d) as [_ Hdone].
  rewrite Hrun in Hdone. simpl in Hdone. destruct (Hdone paths eq_refl) as [-> Hall].
  rewrite fst_zip in * by lia. split; [reflexivity | exact Hall].
Qed.

(** Property X17.
    A successful run returns one path per mix, the path "remainingmix"
    with the mix's extension in the mix's directory, and every returned
    path exists afterwards. *)
Theorem subtract_audio_paths
    (mix_list instrument_list paths : list string) (d d' : disk Au) :
  subtract_audio mix_list instrument_list d = (Done paths, d') ->
  paths = map new_audio_path mix_list
  /\ length paths = length mix_list
  /\ Forall (fun p => path_exists d' p = true) paths.
Proof.
  intros Hrun. destruct (subtract_audio_done _ _ _ _ _ Hrun) as [Hpaths Hall].
  split; [exact Hpaths|]. split; [|exact Hall].
  rewrite Hpaths. apply length_map.
Qed.

Lemma subtract_loop_skips (pairs : list (string * string)) (d : disk Au) :
  Forall (fun p => path_exists d p = true) (map new_audio_path pairs.*1) ->
  forall acc,
    subtract_loop pairs acc d = (Done (acc ++ map new_audio_path pairs.*1), d).
Proof.
  induction pairs as [|[mix inst] rest IH]; intros Hall acc; simpl.
  - now rewrite app_nil_r.
  - simpl in Hall. inversion Hall as [|? ? Hmix Hrest]; subst.
    destruct (subtract_one_effect mix inst d) as (_ & _ & Hskip).
    rewrite (Hskip Hmix). rewrite (IH Hrest). now rewrite <- app_assoc.
Qed.

(** Property X18.
    Running [subtract_audio] again after a successful run, with the
    same mixes and any instruments, returns the same paths and changes
    nothing: no file is read, nothing is written or printed. *)
Theorem subtract_audio_idempotent
    (mix_list instrument_list instrument_list' paths : list string) (d d' : disk Au) :
  subtract_audio mix_list instrument_list d = (Done paths, d') ->
  length instrument_list' = length mix_list ->
  subtract_audio mix_list instrument_list' d' = (Done paths, d').
Proof.
  intros Hrun Hlen'.
  destruct (subtract_audio_done mix_list instrument_list paths d d' Hrun) as (-> & Hall).
  unfold subtract_audio. rewrite Hlen', Nat.eqb_refl. simpl.
  rewrite subtract_loop_skips.
  - rewrite fst_zip by lia. reflexivity.
  - rewrite fst_zip by lia. exact Hall.
Qed.

End SubtractFacts.

Lemma subtract_audio_keeps_files_witness :
  Subtract.files DatasetExamples.song_run.2 !! "/data/song1/mix.wav"%string
  = Some ([3; 4], 44100).
Proof.
  apply (proj1 (@subtract_audio_keeps_files (list Z) DatasetExamples.song_files
                  ["/data/song1/mix.wav"%string] ["/data/song1/vocals.wav"%string]
                  DatasetExamples.song_disk)).
  vm_compute. reflexivity.
Defined.

Lemma subtract_audio_paths_witness :
  ["/data/song1/remainingmix.wav"%string]
  = map (@Subtract.new_audio_path (list Z) DatasetExamples.song_files)
      ["/data/song1/mix.wav"%string]
  /\ Forall (fun p => Subtract.path_exists DatasetExamples.song_run.2 p = true)
       ["/data/song1/remainingmix.wav"%string].
Proof.
  destruct (@subtract_audio_paths (list Z) DatasetExamples.song_files
              ["/data/song1/mix.wav"%string] ["/data/song1/vocals.wav"%string]
              ["/data/song1/remainingmix.wav"%string]
              DatasetExamples.song_disk DatasetExamples.song_run.2)
    as (Hpaths & _ & Hexist).
  - vm_compute. reflexivity.
  - split; assumption.
Defined.

Lemma subtract_audio_idempotent_witness :
  @Subtract.subtract_audio (list Z) DatasetExamples.song_files
    ["/data/song1/mix.wav"%string] ["/data/song1/other.wav"%string]
    DatasetExamples.song_run.2
  = (Datasets.Done ["/data/song1/remainingmix.wav"%string], DatasetExamples.song_run.2).
Proof.
  apply (@subtract_audio_idempotent (list Z) DatasetExamples.song_files
           ["/data/song1/mix.wav"%string] ["/data/song1/vocals.wav"%string]
           ["/data/song1/other.wav"%string] ["/data/song1/remainingmix.wav"%string]
           DatasetExamples.song_disk DatasetExamples.song_run.2).
  - vm_compute. reflexivity.
  - reflexivity.
Defined.

(** ** Reading the files of a folder *)

Section FolderFacts.
Import Datasets Folder.
Variable walk : string -> list (string * list string * list string).
Variable fnmatch_filter : list string -> string -> list string.
Variable from_path : string -> outcome Sample.

Lemma foldl_append_map {X Y : Type} (g : X -> Y) (l : list X) :
  forall acc : list Y, foldl (fun m x => m ++ [g x]) acc l = acc ++ map g l.
Proof.
  induction l as [|x l IH]; intros acc; simpl; [now rewrite app_nil_r|].
  rewrite IH, <- app_assoc. reflexivity.
Qed.

Lemma walk_loop_flat (extension : string)
    (triples : list (string * list string * list string)) :
  forall acc : list string,
  foldl (fun matches '(root, dirnames, filenames) =>
           foldl (fun matches filename => matches ++ [path_join root filename])
             matches (fnmatch_filter filenames ("*." +:+ extension)))
    acc triples
  = acc ++ concat (map (fun '(root, _, filenames) =>
                          map (path_join root)
                            (fnmatch_filter filenames ("*." +:+ extension)))
                     triples).
Proof.
  induction triples as [|[[root dirnames] filenames] rest IH]; intros acc; simpl.
  - now rewrite app_nil_r.
  - rewrite (foldl_append_map (path_join root)), IH, <- app_assoc. reflexivity.
Qed.

Lemma getAllFilesOfType_flat (root_path extension : string) :
  getAllFilesOfType walk fnmatch_filter root_path extension
  = concat (map (fun '(root, _, filenames) =>
                   map (path_join root) (fnmatch_filter filenames ("*." +:+ extension)))
              (walk root_path)).
Proof. unfold getAllFilesOfType. now rewrite walk_loop_flat. Qed.

Lemma read_samples_spec (audio_path : string) (files : list string) :
  forall (acc : list Sample) (out : list string),
  read_samples from_path audio_path files acc out
  = (acc ++ omap (readable from_path) files,
     out ++ concat (map (file_lines from_path audio_path) files)).
Proof.
  induction files as [|f rest IH]; intros acc out; simpl.
  - now rewrite !app_nil_r.
  - unfold readable at 1, file_lines at 1.
    destruct (from_path f) as [sample|e]; rewrite IH; simpl.
    + now rewrite <- !app_assoc.
    + now rewrite <- !app_assoc.
Qed.

(** Property X19.
    [get_samples_in_folder] returns the samples of the files that can be
    read, in the order of the walk, and never an empty list: when no file
    can be read it ends in the assertion.  For every file it prints one
    line, and for every file that cannot be read a second line, which
    names the folder and not the file. *)
Theorem get_samples_in_folder_result (audio_path extension : string) (out : list string) :
  let files :=
    concat (map (fun '(root, _, filenames) =>
                   map (path_join root) (fnmatch_filter filenames ("*." +:+ extension)))
              (walk audio_path)) in
  let loaded := omap (readable from_path) files in
  get_samples_in_folder walk fnmatch_filter from_path audio_path extension out
  = (if decide (loaded = []) then Failed (Builtin AssertionError) else Done loaded,
     out ++ concat (map (file_lines from_path audio_path) files))
  /\ forall (sample_list : list Sample) (out' : list string),
       get_samples_in_folder walk fnmatch_filter from_path audio_path extension out
       = (Done sample_list, out') ->
       sample_list <> [].
Proof.
  intros files loaded.
  assert (Hrun :
    get_samples_in_folder walk fnmatch_filter from_path audio_path extension out
    = (if decide (loaded = []) then Failed (Builtin AssertionError) else Done loaded,
       out ++ concat (map (file_lines from_path audio_path) files))).
  { unfold get_samples_in_folder. rewrite getAllFilesOfType_flat. fold files.
    rewrite read_samples_spec. simpl app. fold loaded.
    destruct loaded as [|s l]; reflexivity. }
  split; [exact Hrun|].
  intros sample_list out'. rewrite Hrun.
  destruct (decide (loaded = [])) as [Hl|Hl]; congruence.
Qed.

End FolderFacts.

Lemma get_samples_in_folder_result_witness :
  [Datasets.MkSample "music/a.mp3" 44100 2 10] <> [].
Proof.
  apply (proj2 (get_samples_in_folder_result DatasetExamples.music_walk
                  DatasetExamples.keep_all DatasetExamples.music_from_path
                  "music" "mp3" [])
           [Datasets.MkSample "music/a.mp3" 44100 2 10]
           ["Reading in metadata of file music/a.mp3";
            "Reading in metadata of file music/b.mp3";
            "Skipping sample at path music"]%string).
  vm_compute. reflexivity.
Defined.

(** ** The FMA loaders *)

Section FmaFacts.
Import Datasets Fma.

Lemma string_length_app (s t : string) :
  String.length (s +:+ t) = (String.length s + String.length t)%nat.
Proof.
  induction s as [|c s IH]; [reflexivity|].
  change (String c s +:+ t) with (String c (s +:+ t)). simpl. now rewrite IH.
Qed.

Lemma string_app_assoc (s t u : string) : (s +:+ t) +:+ u = s +:+ (t +:+ u).
Proof.
  induction s as [|c s IH]; [reflexivity|].
  change (String c s +:+ t) with (String c (s +:+ t)).
  change (String c (s +:+ t) +:+ u) with (String c ((s +:+ t) +:+ u)).
  now rewrite IH.
Qed.

Lemma pretty_N_go_app (x : N) :
  forall s : string, pretty_N_go x s = pretty_N_go x EmptyString +:+ s.
Proof.
  induction x as [x IH] using (well_founded_ind N.lt_wf_0). intros s.
  destruct (decide (x = 0%N)) as [->|Hx].
  - rewrite !pretty_N_go_0. reflexivity.
  - rewrite (pretty_N_go_step x s), (pretty_N_go_step x EmptyString) by lia.
    assert (Hlt : (x `div` 10 < x)%N) by (apply N.div_lt; lia).
    rewrite (IH _ Hlt (String _ s)), (IH _ Hlt (String _ EmptyString)).
    rewrite string_app_assoc. reflexivity.
Qed.

Lemma pretty_N_pos (x : N) : (0 < x)%N -> pretty x = pretty_N_go x EmptyString.
Proof.
  intros Hx. unfold pretty, pretty_N. destruct (decide (x = 0%N)); [lia | reflexivity].
Qed.

Lemma digits_1000 (x : N) :
  (x / 10 / 10 / 10 = x / 1000
   /\ (x / 10 / 10) mod 10 = x mod 1000 / 100
   /\ (x / 10) mod 10 = (x mod 1000 / 10) mod 10
   /\ x mod 10 = (x mod 1000) mod 10)%N.
Proof.
  pose proof (N.div_mod x 10 ltac:(lia)) as H1.
  pose proof (N.mod_lt x 10 ltac:(lia)) as B1.
  pose proof (N.div_mod (x / 10) 10 ltac:(lia)) as H2.
  pose proof (N.mod_lt (x / 10) 10 ltac:(lia)) as B2.
  pose proof (N.div_mod (x / 10 / 10) 10 ltac:(lia)) as H3.
  pose proof (N.mod_lt (x / 10 / 10) 10 ltac:(lia)) as B3.
  pose proof (N.div_mod x 1000 ltac:(lia)) as H4.
  pose proof (N.mod_lt x 1000 ltac:(lia)) as B4.
  pose proof (N.div_mod (x mod 1000) 100 ltac:(lia)) as H5.
  pose proof (N.mod_lt (x mod 1000) 100 ltac:(lia)) as B5.
  pose proof (N.div_mod (x mod 1000) 10 ltac:(lia)) as H6.
  pose proof (N.mod_lt (x mod 1000) 10 ltac:(lia)) as B6.
  pose proof (N.div_mod (x mod 1000 / 10) 10 ltac:(lia)) as H7.
  pose proof (N.mod_lt (x mod 1000 / 10) 10 ltac:(lia)) as B7.
  set (q1 := (x / 10)%N) in *. set (r1 := (x mod 10)%N) in *.
  set (q2 := (q1 / 10)%N) in *. set (r2 := (q1 mod 10)%N) in *.
  set (q3 := (q2 / 10)%N) in *. set (r3 := (q2 mod 10)%N) in *.
  set (Q := (x / 1000)%N) in *. set (R := (x mod 1000)%N) in *.
  set (s := (R / 100)%N) in *. set (t := (R mod 100)%N) in *.
  set (u := (R / 10)%N) in *. set (v := (R mod 10)%N) in *.
  set (u1 := (u / 10)%N) in *. set (v1 := (u mod 10)%N) in *.
  clearbody q1 r1 q2 r2 q3 r3 Q R s t u v u1 v1.
  assert (E0 : q3 = Q) by lia.
  assert (ER : R = (100 * r3 + 10 * r2 + r1)%N) by lia.
  assert (E3 : r1 = v) by lia.
  assert (Eu : u = (10 * r3 + r2)%N) by lia.
  assert (E2 : r2 = v1) by lia.
  assert (E1 : r3 = s) by lia.
  auto.
Qed.

Lemma pretty_N_thousands (x : N) :
  (1000 <= x)%N -> pretty x = pretty (x / 1000)%N +:+ three_digits (x mod 1000)%N.
Proof.
  intros Hx.
  assert (H1 : (0 < x / 10)%N) by (apply N.div_str_pos; lia).
  assert (H2 : (0 < x / 10 / 10)%N).
  { rewrite N.Div0.div_div. apply N.div_str_pos; lia. }
  assert (H3 : (0 < x / 1000)%N) by (apply N.div_str_pos; lia).
  rewrite pretty_N_pos by lia.
  rewrite (pretty_N_go_step x) by lia.
  rewrite (pretty_N_go_step (x / 10)) by lia.
  rewrite (pretty_N_go_step (x / 10 / 10)) by lia.
  rewrite pretty_N_go_app. rewrite (pretty_N_pos (x / 1000)) by lia.
  unfold three_digits.
  destruct (digits_1000 x) as (E0 & E1 & E2 & E3).
  rewrite E0, E1, E2, <- E3. reflexivity.
Qed.

Lemma pretty_N_hundreds (y : N) :
  (y < 1000)%N ->
  zeros (3 - String.length (pretty y)) +:+ pretty y = three_digits y.
Proof.
  intros Hy. unfold three_digits.
  destruct (decide (y = 0%N)) as [->|H0]; [reflexivity|].
  rewrite pretty_N_pos by lia. rewrite (pretty_N_go_step y) by lia.
  destruct (decide (y < 10)%N) as [H10|H10].
  { rewrite (N.div_small y 10) by lia. rewrite pretty_N_go_0.
    rewrite (N.div_small y 100) by lia. rewrite (N.mod_small 0 10) by lia.
    reflexivity. }
  assert (0 < y / 10)%N by (apply N.div_str_pos; lia).
  rewrite (pretty_N_go_step (y / 10)) by lia.
  destruct (decide (y < 100)%N) as [H100|H100].
  { rewrite N.Div0.div_div. change (10 * 10)%N with 100%N.
    rewrite (N.div_small y 100) by lia. rewrite pretty_N_go_0. reflexivity. }
  assert (E : (y / 10 / 10 = y / 100)%N) by (rewrite N.Div0.div_div; reflexivity).
  assert (0 < y / 10 / 10)%N by (rewrite E; apply N.div_str_pos; lia).
  rewrite (pretty_N_go_step (y / 10 / 10)) by lia.
  assert (Hsmall : (y / 100 < 10)%N) by (apply N.Div0.div_lt_upper_bound; lia).
  rewrite E. rewrite (N.div_small (y / 100) 10) by lia. rewrite pretty_N_go_0.
  rewrite (N.mod_small (y / 100) 10) by lia. reflexivity.
Qed.

Lemma pretty_Z_of_N (x : N) : pretty (Z.of_N x) = pretty x.
Proof. destruct x; reflexivity. Qed.

Lemma format_0d_of_N (w : nat) (x : N) :
  format_0d w (Z.of_N x) = zeros (w - String.length (pretty x)) +:+ pretty x.
Proof.
  unfold format_0d. rewrite (proj2 (Z.ltb_ge _ _)) by lia.
  rewrite Z.abs_eq by lia. rewrite pretty_Z_of_N. simpl String.length.
  rewrite Nat.sub_0_r. reflexivity.
Qed.

Lemma three_digits_length (y : N) : String.length (three_digits y) = 3%nat.
Proof. reflexivity. Qed.

Lemma zeros_add (a b : nat) : zeros (a + b) = zeros a +:+ zeros b.
Proof.
  induction a as [|a IH]; [reflexivity|]. simpl. rewrite IH. reflexivity.
Qed.

Lemma zeros_length (a : nat) : String.length (zeros a) = a.
Proof. induction a as [|a IH]; simpl; congruence. Qed.

Lemma format_0d_split (x : N) :
  format_0d 6 (Z.of_N x)
  = format_0d 3 (Z.of_N (x / 1000)) +:+ three_digits (x mod 1000)%N.
Proof.
  rewrite !format_0d_of_N.
  destruct (decide (x < 1000)%N) as [Hs|Hl].
  - rewrite (N.div_small x 1000), (N.mod_small x 1000) by lia.
    rewrite <- (pretty_N_hundreds x Hs).
    assert (Hlen : (String.length (pretty x) <= 3)%nat).
    { pose proof (f_equal String.length (pretty_N_hundreds x Hs)) as Hl.
      rewrite string_length_app, three_digits_length in Hl. lia. }
    replace (6 - String.length (pretty x))%nat
      with (3 + (3 - String.length (pretty x)))%nat by lia.
    rewrite zeros_add, string_app_assoc. reflexivity.
  - rewrite (pretty_N_thousands x) by lia.
    rewrite string_length_app, three_digits_length.
    replace (6 - (String.length (pretty (x / 1000)%N) + 3))%nat
      with (3 - String.length (pretty (x / 1000)%N))%nat by lia.
    rewrite string_app_assoc. reflexivity.
Qed.

(** Property X20.
    The folder of a track is named by the file name without its last
    three digits: for a track id that is not negative the six-digit file
    name is the folder name followed by the three-digit remainder, and
    below one million the folder name has exactly three characters, the
    first three of the file name. *)
Theorem fma_path_layout (track_id : Z) :
  0 <= track_id ->
  fma_filename track_id
  = fma_foldername track_id +:+ format_0d 3 (track_id mod 1000) +:+ ".mp3"
  /\ String.length (format_0d 3 (track_id mod 1000)) = 3%nat
  /\ (track_id < 1000000 ->
      String.length (fma_foldername track_id) = 3%nat
      /\ String.length (fma_filename track_id) = 10%nat).
Proof.
  intros Hid. unfold fma_filename, fma_foldername.
  rewrite <- (Z2N.id track_id) by lia. set (x := Z.to_N track_id).
  assert (Hdiv : Z.of_N x / 1000 = Z.of_N (x / 1000)) by (rewrite N2Z.inj_div; reflexivity).
  assert (Hmod : Z.of_N x mod 1000 = Z.of_N (x mod 1000)).
  { rewrite N2Z.inj_mod; reflexivity. }
  rewrite Hdiv, Hmod.
  assert (Hrem : format_0d 3 (Z.of_N (x mod 1000)) = three_digits (x mod 1000)).
  { rewrite format_0d_of_N. apply pretty_N_hundreds. apply N.mod_lt. lia. }
  rewrite Hrem. split; [|split].
  - rewrite format_0d_split, string_app_assoc. reflexivity.
  - reflexivity.
  - intros Hmax.
    assert (Hfold : String.length (format_0d 3 (Z.of_N (x / 1000))) = 3%nat).
    { rewrite format_0d_of_N, pretty_N_hundreds; [reflexivity|].
      apply N.Div0.div_lt_upper_bound. lia. }
    split; [exact Hfold|].
    rewrite format_0d_split, !string_length_app, Hfold. reflexivity.
Qed.

End FmaFacts.

Lemma fma_path_layout_witness :
  Fma.fma_filename 12345
  = Fma.fma_foldername 12345 +:+ Fma.format_0d 3 (12345 mod 1000) +:+ ".mp3".
Proof. apply (proj1 (fma_path_layout 12345 ltac:(lia))). Defined.

Section FmaLoad.
Import Datasets Fma.
Variable read_csv : string -> outcome (list (gmap string string)).
Variable py_int : string -> outcome Z.
Variable from_path : string -> outcome Sample.
Variable exn_message : dexn -> string.

Lemma vocal_rows_spec (audio_path : string) (rows : list (gmap string string)) :
  Forall (fun row => is_Some (row_int py_int "track_instrumental" row)
                     /\ is_Some (row_int py_int "track_id" row)) rows ->
  forall (acc : list Sample) (out : list string),
  (fma_rows py_int from_path exn_message (vocal_row py_int) audio_path rows acc out).1
  = Done (acc ++ omap (vocal_sample py_int from_path audio_path) rows).
Proof.
  induction 1 as [|row rest [[v Hv] [track_id Hid]] _ IH]; intros acc out; simpl.
  - now rewrite app_nil_r.
  - unfold vocal_sample at 1. rewrite Hv, Hid.
    unfold vocal_row, fma_row. unfold row_int in Hv, Hid.
    destruct (row !! "track_instrumental"%string) as [text|]; [|discriminate].
    destruct (py_int text) as [v'|e] eqn:Htext; [|discriminate].
    injection Hv as ->. simpl.
    destruct (row !! "track_id"%string) as [text'|]; [|discriminate].
    destruct (py_int text') as [id'|e]; [|discriminate].
    injection Hid as ->.
    destruct (Z.eqb_spec v 0) as [->|Hne].
    + destruct (from_path (fma_audio_file audio_path track_id)) as [sample|e].
      * rewrite IH, <- app_assoc. reflexivity.
      * rewrite IH. reflexivity.
    + rewrite IH. destruct v; try reflexivity. lia.
Qed.

(** Property X21.
    [getVocalFMA] does not fail for a track whose file cannot be read:
    when the csv file can be read and both columns hold integers in
    every row, the result is the list, possibly empty, of the samples of
    the tracks that are not instrumental and can be read, in the order
    of the rows. *)
Theorem getVocalFMA_result (database_path : string) (audio_path : option string)
    (out : list string) (rows : list (gmap string string)) :
  read_csv (path_join (path_join database_path "fma_metadata") "raw_tracks.csv")
  = Done rows ->
  Forall (fun row => is_Some (row_int py_int "track_instrumental" row)
                     /\ is_Some (row_int py_int "track_id" row)) rows ->
  (getVocalFMA read_csv py_int from_path exn_message database_path audio_path out).1
  = Done (omap (vocal_sample py_int from_path (default database_path audio_path)) rows).
Proof.
  intros Hcsv Hrows. unfold getVocalFMA. rewrite Hcsv.
  rewrite vocal_rows_spec by exact Hrows. reflexivity.
Qed.

End FmaLoad.

Lemma getVocalFMA_result_witness :
  (Fma.getVocalFMA DatasetExamples.one_row_csv DatasetExamples.two_numbers
     DatasetExamples.any_from_path DatasetExamples.no_message "/data" None []).1
  = Datasets.Done [Datasets.MkSample "/data/fma_full/012/012345.mp3" 44100 2 10].
Proof.
  rewrite (getVocalFMA_result DatasetExamples.one_row_csv DatasetExamples.two_numbers
             DatasetExamples.any_from_path DatasetExamples.no_message "/data" None []
             [<["track_id"%string := "12345"%string]>
                (<["track_instrumental"%string := "0"%string]> ∅)]).
  - vm_compute. reflexivity.
  - reflexivity.
  - repeat constructor; vm_compute; eauto.
Defined.

(** ** [convert_float_to_pcm] *)

Section PcmFacts.
Import Pcm.
Variable cast_out_of_range : npfloat -> Z.







End PcmFacts.


(** ** The tuples of [getURMPV2] *)

Section UrmpFacts.
Import Datasets Urmp.
Variable listdir : string -> outcome (list string).
Variable sf_read : string -> outcome (nat * nat * Z).

Lemma obind_done_inv {T U : Type} (c : outcome T) (k : T -> outcome U) (u : U) :
  obind c k = Done u -> exists v, c = Done v /\ k v = Done u.
Proof. destruct c as [v|e]; simpl; [eauto | discriminate]. Qed.

Lemma py_insert_perm {T : Type} (i : nat) (x : T) (l : list T) :
  py_insert i x l ≡ₚ x :: l.
Proof.
  unfold py_insert. rewrite <- Permutation_middle. now rewrite take_drop.
Qed.

Lemma read_sample_path (p : string) (s : Sample) :
  read_sample sf_read p = Done s -> path s = p.
Proof.
  unfold read_sample. destruct (sf_read p) as [[[frames chans] rate]|e]; simpl;
    [|discriminate].
  destruct (decide (rate = 0)); [discriminate|]. intros [= <-]. reflexivity.
Qed.

(** One file: a name that does not end in .wav changes nothing; a .wav
    file adds one sample, read from the file's path, somewhere in the
    list. *)
Lemma place_file_adds (dir : string) (slots slots' : list slot) (filename : string) :
  place_file sf_read dir slots filename = Done slots' ->
  if is_wav filename
  then exists s : Sample,
         path s = path_join dir filename /\ slots' ≡ₚ Loaded s :: slots
  else slots' = slots.
Proof.
  unfold place_file, is_wav. destruct (py_endswith filename ".wav"); [|congruence].
  destruct (py_startswith filename "AuMix").
  - intros Hrun. apply obind_done_inv in Hrun as (mix & Hmix & Hdone).
    injection Hdone as <-. exists mix. split.
    + eapply read_sample_path, Hmix.
    + apply py_insert_perm.
  - intros Hrun.
    apply obind_done_inv in Hrun as (name & _ & Hrun).
    apply obind_done_inv in Hrun as (idx & _ & Hrun).
    apply obind_done_inv in Hrun as (source & Hsrc & Hdone).
    injection Hdone as <-. exists source. split.
    + eapply read_sample_path, Hsrc.
    + apply py_insert_perm.
Qed.

Lemma place_files_adds (dir : string) (filenames : list string) :
  forall slots slots' : list slot,
  place_files sf_read dir slots filenames = Done slots' ->
  exists loaded : list Sample,
    map path loaded = map (path_join dir) (List.filter is_wav filenames)
    /\ slots' ≡ₚ map Loaded loaded ++ slots.
Proof.
  induction filenames as [|f rest IH]; intros slots slots' Hrun; simpl in Hrun.
  - injection Hrun as <-. exists []. split; reflexivity.
  - apply obind_done_inv in Hrun as (slots1 & Hone & Hrest).
    apply place_file_adds in Hone. destruct (IH _ _ Hrest) as (loaded & Hpaths & Hperm).
    simpl. destruct (is_wav f).
    + destruct Hone as (s & Hs & Hp1). exists (s :: loaded). split.
      * simpl. now rewrite Hs, Hpaths.
      * rewrite Hperm, Hp1. simpl. now rewrite <- Permutation_middle.
    + subst slots1. exists loaded. split; assumption.
Qed.

(** Property X23.
    The tuple of a track holds every sample read from the folder's .wav
    files, once each, and fourteen times the silence sample: it has
    fourteen entries more than the folder has .wav files. *)
Theorem urmp_track_contents (subset_dir folder : string) (track : list Sample) :
  urmp_track listdir sf_read subset_dir folder = Done track ->
  exists (filenames : list string) (loaded : list Sample) (silence : Sample),
    listdir (path_join subset_dir folder) = Done filenames
    /\ read_sample sf_read silence_path = Done silence
    /\ map path loaded
       = map (path_join (path_join subset_dir folder)) (List.filter is_wav filenames)
    /\ track ≡ₚ loaded ++ replicate 14 silence
    /\ length track = (14 + length (List.filter is_wav filenames))%nat.
Proof.
  unfold urmp_track. intros Hrun.
  apply obind_done_inv in Hrun as (filenames & Hls & Hrun).
  apply obind_done_inv in Hrun as (slots & Hplace & Hrun).
  apply obind_done_inv in Hrun as (silence & Hsil & Hdone).
  injection Hdone as <-.
  destruct (place_files_adds _ _ _ _ Hplace) as (loaded & Hpaths & Hperm).
  exists filenames, loaded, silence.
  assert (Htrack :
    map (fun track => match track with Placeholder => silence | Loaded s => s end) slots
    ≡ₚ loaded ++ replicate 14 silence).
  { rewrite Hperm, map_app, map_map. simpl. rewrite map_id. reflexivity. }
  repeat split; try assumption.
  rewrite Htrack, length_app, length_replicate.
  rewrite <- (length_map path loaded), Hpaths, length_map. lia.
Qed.

Lemma place_files_app (dir : string) (pre post : list string) (slots : list slot) :
  place_files sf_read dir slots (pre ++ post)
  = (slots' <~ place_files sf_read dir slots pre ;; place_files sf_read dir slots' post).
Proof.
  revert slots. induction pre as [|f pre IH]; intros slots; simpl; [reflexivity|].
  destruct (place_file sf_read dir slots f) as [slots1|e]; simpl; [apply IH | reflexivity].
Qed.

Lemma place_files_keep_head (dir : string) (post : list string) :
  Forall (fun g => is_wav g = true -> insert_index g <> Some 0%nat) post ->
  forall (h : slot) (slots slots' : list slot),
  place_files sf_read dir (h :: slots) post = Done slots' ->
  slots' !! 0%nat = Some h.
Proof.
  induction 1 as [|g post Hg _ IH]; intros h slots slots' Hrun; simpl in Hrun.
  - injection Hrun as <-. reflexivity.
  - apply obind_done_inv in Hrun as (slots1 & Hone & Hrest).
    assert (Hhead : exists t, slots1 = h :: t).
    { unfold place_file in Hone. unfold is_wav, insert_index in Hg.
      destruct (py_endswith g ".wav"); [|injection Hone as <-; eauto].
      destruct (py_startswith g "AuMix"); [exfalso; apply Hg; reflexivity|].
      apply obind_done_inv in Hone as (name & Hname & Hone).
      apply obind_done_inv in Hone as (idx & Hidx & Hone).
      apply obind_done_inv in Hone as (source & _ & Hdone).
      destruct (py_split underscore g !! 2%nat) as [name'|]; [|discriminate].
      injection Hname as ->.
      destruct (source_map !! name) as [idx'|] eqn:Hmap; [|discriminate].
      injection Hidx as ->.
      destruct idx as [|idx]; [exfalso; apply Hg; reflexivity|].
      injection Hdone as <-. unfold py_insert. simpl. eauto. }
    destruct Hhead as [t ->]. eapply IH, Hrest.
Qed.

(** Property X24.
    Where the mix ends up: when no file listed after an AuMix file is
    inserted at index 0, the first entry of the tuple is the sample of
    that AuMix file. *)
Theorem urmp_track_mix_first (subset_dir folder : string) (track : list Sample)
    (pre post : list string) (mixname : string) :
  urmp_track listdir sf_read subset_dir folder = Done track ->
  listdir (path_join subset_dir folder) = Done (pre ++ mixname :: post) ->
  is_wav mixname = true ->
  py_startswith mixname "AuMix" = true ->
  Forall (fun g => is_wav g = true -> insert_index g <> Some 0%nat) post ->
  exists mix : Sample,
    track !! 0%nat = Some mix
    /\ path mix = path_join (path_join subset_dir folder) mixname.
Proof.
  unfold urmp_track. intros Hrun Hls Hwav Hmix Hpost. rewrite Hls in Hrun. simpl in Hrun.
  apply obind_done_inv in Hrun as (slots & Hplace & Hrun).
  apply obind_done_inv in Hrun as (silence & _ & Hdone). injection Hdone as <-.
  rewrite place_files_app in Hplace.
  apply obind_done_inv in Hplace as (slots0 & _ & Hplace). simpl in Hplace.
  apply obind_done_inv in Hplace as (slots1 & Hone & Hrest).
  unfold place_file in Hone. unfold is_wav in Hwav. rewrite Hwav, Hmix in Hone.
  apply obind_done_inv in Hone as (mix & Hread & Hdone). injection Hdone as <-.
  unfold py_insert in Hrest. simpl in Hrest.
  pose proof (place_files_keep_head _ _ Hpost _ _ _ Hrest) as Hhead.
  exists mix. split.
  - rewrite list_lookup_fmap, Hhead. reflexivity.
  - eapply read_sample_path, Hread.
Qed.

Lemma source_map_bound (name : string) (idx : nat) :
  source_map !! name = Some idx -> (idx < 14)%nat.
Proof.
  unfold source_map. intros Hl. apply elem_of_list_to_map_2 in Hl.
  repeat (apply elem_of_cons in Hl as [Hl|Hl]; [injection Hl as _ ->; lia|]).
  inversion Hl.
Qed.

Lemma take_take_le {T : Type} (l : list T) (n m : nat) :
  (n <= m)%nat -> take n (take m l) = take n l.
Proof. intros Hle. rewrite take_take. f_equal. lia. Qed.

Lemma place_file_wav (dir : string) (slots slots' : list slot) (filename : string) :
  place_file sf_read dir slots filename = Done slots' ->
  is_wav filename = true ->
  exists (i : nat) (s : Sample),
    insert_index filename = Some i /\ (i < 14)%nat
    /\ path s = path_join dir filename
    /\ slots' = py_insert i (Loaded s) slots.
Proof.
  unfold place_file, is_wav, insert_index. intros Hrun Hwav. rewrite Hwav in Hrun.
  destruct (py_startswith filename "AuMix").
  - apply obind_done_inv in Hrun as (mix & Hmix & Hdone). injection Hdone as <-.
    exists 0%nat, mix. repeat split; [lia|]. eapply read_sample_path, Hmix.
  - apply obind_done_inv in Hrun as (name & Hname & Hrun).
    apply obind_done_inv in Hrun as (idx & Hidx & Hrun).
    apply obind_done_inv in Hrun as (source & Hsrc & Hdone). injection Hdone as <-.
    destruct (py_split underscore filename !! 2%nat) as [name'|]; [|discriminate].
    injection Hname as ->.
    destruct (source_map !! name) as [idx'|] eqn:Hmap; [|discriminate].
    injection Hidx as ->.
    exists idx, source. repeat split.
    + eapply source_map_bound, Hmap.
    + eapply read_sample_path, Hsrc.
Qed.

Lemma place_file_not_wav (dir : string) (slots slots' : list slot) (filename : string) :
  place_file sf_read dir slots filename = Done slots' ->
  is_wav filename = false -> slots' = slots.
Proof.
  unfold place_file, is_wav. intros Hrun Hwav. rewrite Hwav in Hrun. congruence.
Qed.

Lemma place_files_ordered (dir : string) (filenames : list string) :
  forall (lo : nat) (slots slots' : list slot),
  place_files sf_read dir slots filenames = Done slots' ->
  StronglySorted lt (wav_indexes filenames) ->
  Forall (fun i => lo <= i)%nat (wav_indexes filenames) ->
  (14 <= length slots)%nat ->
  take lo slots' = take lo slots
  /\ forall (f : string) (i : nat),
       f ∈ filenames -> is_wav f = true -> insert_index f = Some i ->
       exists s : Sample,
         slots' !! i = Some (Loaded s) /\ path s = path_join dir f.
Proof.
  induction filenames as [|g rest IH]; intros lo slots slots' Hrun Hsorted Hlo Hlen.
  - simpl in Hrun. injection Hrun as <-. split; [reflexivity|].
    intros f i Hf. inversion Hf.
  - simpl in Hrun. apply obind_done_inv in Hrun as (slots1 & Hone & Hrest).
    unfold wav_indexes in Hsorted, Hlo. simpl in Hsorted, Hlo.
    destruct (is_wav g) eqn:Hwav.
    + destruct (place_file_wav _ _ _ _ Hone Hwav) as (i & s & Hidx & Hi & Hpath & ->).
      simpl in Hsorted, Hlo. rewrite Hidx in Hsorted, Hlo.
      apply StronglySorted_inv in Hsorted as [Hsorted Hafter].
      apply Forall_cons in Hlo as [Hloi _].
      destruct (IH (S i) (py_insert i (Loaded s) slots) slots' Hrest Hsorted) as [Hkeep Hfound].
      { eapply Forall_impl; [exact Hafter|]. simpl. intros; lia. }
      { unfold py_insert. rewrite length_app, length_take. simpl. rewrite length_drop. lia. }
      assert (Hat : slots' !! i = Some (Loaded s)).
      { rewrite <- (lookup_take_lt slots' (S i) i) by lia. rewrite Hkeep.
        rewrite lookup_take_lt by lia. unfold py_insert.
        apply list_lookup_middle. rewrite length_take. lia. }
      split.
      * rewrite <- (take_take_le slots' lo (S i)) by lia. rewrite Hkeep.
        rewrite take_take_le by lia. unfold py_insert.
        rewrite take_app_le by (rewrite length_take; lia).
        apply take_take_le. lia.
      * intros f j Hf Hfw Hfj. apply elem_of_cons in Hf as [->|Hf].
        -- rewrite Hidx in Hfj. injection Hfj as <-. exists s. split; assumption.
        -- apply Hfound; assumption.
    + apply (place_file_not_wav _ _ _ _ Hone) in Hwav as Heq. subst slots1.
      destruct (IH lo slots slots' Hrest Hsorted Hlo Hlen) as [Hkeep Hfound].
      split; [exact Hkeep|].
      intros f j Hf Hfw Hfj. apply elem_of_cons in Hf as [->|Hf]; [congruence|].
      apply Hfound; assumption.
Qed.

(** Property X25.
    When the folder lists its .wav files in the order of their indices
    (the mix first, then the instruments as in [source_map], each at
    most once), every file's sample sits at its own index of the
    tuple. *)
Theorem urmp_track_in_order (subset_dir folder : string) (track : list Sample)
    (filenames : list string) :
  urmp_track listdir sf_read subset_dir folder = Done track ->
  listdir (path_join subset_dir folder) = Done filenames ->
  StronglySorted lt (wav_indexes filenames) ->
  forall (f : string) (i : nat),
    f ∈ filenames -> is_wav f = true -> insert_index f = Some i ->
    exists s : Sample,
      track !! i = Some s /\ path s = path_join (path_join subset_dir folder) f.
Proof.
  unfold urmp_track. intros Hrun Hls Hsorted f i Hf Hwav Hidx.
  rewrite Hls in Hrun. simpl in Hrun.
  apply obind_done_inv in Hrun as (slots & Hplace & Hrun).
  apply obind_done_inv in Hrun as (silence & _ & Hdone). injection Hdone as <-.
  destruct (place_files_ordered _ _ 0%nat _ _ Hplace Hsorted) as [_ Hfound].
  { apply Forall_forall. intros; lia. }
  { simpl. lia. }
  destruct (Hfound f i Hf Hwav Hidx) as (s & Hs & Hpath).
  exists s. split; [|exact Hpath]. rewrite list_lookup_fmap, Hs. reflexivity.
Qed.

End UrmpFacts.

Lemma urmp_track_contents_witness :
  length DatasetExamples.shuffled_track = (14 + 3)%nat.
Proof.
  destruct (urmp_track_contents DatasetExamples.shuffled_listdir
              DatasetExamples.short_sf_read "db/train" "01"
              DatasetExamples.shuffled_track)
    as (filenames & loaded & silence & Hls & _ & _ & _ & Hlen).
  - vm_compute. reflexivity.
  - injection Hls as <-. exact Hlen.
Defined.

Lemma urmp_track_mix_first_witness :
  exists mix : Datasets.Sample,
    DatasetExamples.shuffled_track !! 0%nat = Some mix
    /\ Datasets.path mix
       = Datasets.path_join (Datasets.path_join "db/train" "01") "AuMix_01_J.wav".
Proof.
  apply (urmp_track_mix_first DatasetExamples.shuffled_listdir
           DatasetExamples.short_sf_read "db/train" "01"
           DatasetExamples.shuffled_track
           ["AuSep_2_vn_01_J.wav"%string] ["AuSep_1_bn_01_J.wav"; "notes.txt"]%string
           "AuMix_01_J.wav").
  - vm_compute. reflexivity.
  - reflexivity.
  - reflexivity.
  - reflexivity.
  - repeat constructor; vm_compute; intros; discriminate.
Defined.

Lemma urmp_track_in_order_witness :
  exists s : Datasets.Sample,
    DatasetExamples.sorted_track !! 13%nat = Some s
    /\ Datasets.path s
       = Datasets.path_join (Datasets.path_join "db/train" "01") "AuSep_2_vn_01_J.wav".
Proof.
  apply (urmp_track_in_order DatasetExamples.sorted_listdir
           DatasetExamples.short_sf_read "db/train" "01"
           DatasetExamples.sorted_track
           ["AuMix_01_J.wav"; "AuSep_1_bn_01_J.wav"; "AuSep_2_vn_01_J.wav";
            "notes.txt"]%string).
  - vm_compute. reflexivity.
  - reflexivity.
  - vm_compute. repeat constructor.
  - set_solver.
  - reflexivity.
  - vm_compute. reflexivity.
Defined.

(** ** A model with too few sources *)

Section TooFewSources.
Context {A : Type} `{Sample A} `{Librosa A}.

Lemma py_index_out {T : Type} (l : list T) (i : nat) :
  (length l <= i)%nat -> py_index l i = Raise IndexError.
Proof. intros Hi. unfold py_index. now rewrite lookup_ge_None_2. Qed.

(** Property X26.
    The task fixes how many estimates [predict] reads: two for "voice",
    four otherwise.  With a model of fewer sources the whole track is
    still separated, window by window, and only then the lookup of the
    missing estimate ends the call with IndexError. *)
Theorem predict_too_few_sources (cfg : model_config) (sess : inference)
    (track_audio : ndarray A) (track_rate : Z) (b_in I c_in b_out O c_out : Z) :
  let mix := prepare_mixture cfg track_audio track_rate in
  ndim track_audio = 2%nat ->
  resampler_ok ->
  session_ok sess (num_sources cfg) (Z.to_nat I) (Z.to_nat O) (dim mix 1) ->
  0 < O -> O <= Z.of_nat (dim mix 0) -> O <= I -> (I - O) mod 2 = 0 ->
  (if decide (task cfg = "voice"%string) then num_sources cfg < 2
   else num_sources cfg < 4)%nat ->
  is_ok (predict_track cfg sess track_audio track_rate (b_in, I, c_in) (b_out, O, c_out))
  = true
  /\ predict cfg sess track_audio track_rate (b_in, I, c_in) (b_out, O, c_out)
     = Raise IndexError.
Proof.
  intros mix Hn Hres Hsess HO HOL HOI Heven Hfew.
  destruct (predict_track_result cfg sess track_audio track_rate b_in I c_in b_out O c_out
              Hn Hres Hsess HO HOL HOI Heven) as (preds & Hrun & Hlen & _).
  split; [rewrite Hrun; reflexivity|].
  unfold predict. rewrite (shape_2d _ Hn). cbn [py_index lookup list_lookup bind].
  rewrite Hrun. cbn [bind].
  set (back := fun pred : ndarray A =>
                 transpose (resample (transpose pred) (expected_sr cfg) track_rate
                              "kaiser_best")).
  set (pred_audio :=
         if mono_downmix cfg && bool_decide (1 < dim track_audio 1)%nat
         then map (fun pred => np_tile_cols pred (dim track_audio 1)) (map back preds)
         else map back preds).
  assert (Hlenp : length pred_audio = num_sources cfg).
  { unfold pred_audio.
    destruct (mono_downmix cfg && bool_decide (1 < dim track_audio 1)%nat);
      rewrite ?length_map; exact Hlen. }
  destruct (decide (task cfg = "voice"%string)) as [Hv|Hv].
  - rewrite (py_index_out pred_audio 1) by lia. reflexivity.
  - destruct (decide (length pred_audio <= 0)%nat) as [Hz|Hz].
    { rewrite (py_index_out pred_audio 0) by lia. reflexivity. }
    destruct (py_index_ok pred_audio 0) as (bass & -> & _); [lia|]. cbn [bind].
    destruct (decide (length pred_audio <= 1)%nat) as [Ho|Ho].
    { rewrite (py_index_out pred_audio 1) by lia. reflexivity. }
    destruct (py_index_ok pred_audio 1) as (drums & -> & _); [lia|]. cbn [bind].
    destruct (decide (length pred_audio <= 2)%nat) as [Ht|Ht].
    { rewrite (py_index_out pred_audio 2) by lia. reflexivity. }
    destruct (py_index_ok pred_audio 2) as (other & -> & _); [lia|]. cbn [bind].
    rewrite (py_index_out pred_audio 3) by lia. reflexivity.
Qed.

End TooFewSources.

Lemma predict_too_few_sources_witness :
  predict (ModelConfig false 22050 1 "voice") (ramp_session 1 4 2)
    (ramp_mixture 10 2) 22050 (1, 6, 2) (1, 4, 2)
  = Raise IndexError.
Proof.
  refine (proj2 (predict_too_few_sources (ModelConfig false 22050 1 "voice")
                   (ramp_session 1 4 2) (ramp_mixture 10 2) 22050 1 6 2 1 4 2
                   _ _ _ _ _ _ _ _)).
  - reflexivity.
  - exact librosa_id_ok.
  - exact (ramp_session_ok 1 6 4 2).
  - lia.
  - change (4 <= 10). lia.
  - lia.
  - reflexivity.
  - simpl. lia.
Defined.
